(** * Shallow embedding of [samples/src/c/unwrap_loops.c]

    The three sample functions are flattened goto/label graphs.  Each one is
    embedded as a transition function over its program points (one point per
    statement of the source, named after its line), with the locals as
    record fields and the outside world (memory and the [extern] callees)
    threaded explicitly.  Every external call is logged in a trace. *)

From Stdlib Require Import ZArith List Lia Bool.
Import ListNotations.
Open Scope Z_scope.

(** ** Machine integers *)

(** [unsigned int] / [_DWORD]. *)
Definition uint32 (z : Z) : Z := z mod 2 ^ 32.

(** [int]: two's complement, wrapping. *)
Definition sint32 (z : Z) : Z := (z + 2 ^ 31) mod 2 ^ 32 - 2 ^ 31.

(** [__int64]. *)
Definition sint64 (z : Z) : Z := (z + 2 ^ 63) mod 2 ^ 64 - 2 ^ 63.

(** C truth value of a comparison. *)
Definition c_bool (b : bool) : Z := if b then 1 else 0.

(** ** External calls *)

Inductive event : Type :=
| Call_InterlockedCompareExchange (Destination Exchange Comperand ret : Z)
| Call_unk_1802CCC58 (a1 : Z)
| Call_sub_1800D3BF0 (a1 a2 a3 a4 a5 : Z)
| Call_sub_180221640 (a1 a2 a3 a4 a5 a6 : Z).

(** The [extern] declarations of the file and what [polyfill.h] supplies.
    [world] is whatever the callees can observe and change; nothing is
    assumed about them. *)
Class Externals (world : Type) : Type := {
  (** [*(_DWORD * )p] *)
  load_DWORD : world -> Z -> Z;
  (** [*(_QWORD * )p] *)
  load_QWORD : world -> Z -> Z;
  (** [&g_mutex.SpinCount] *)
  g_mutex_SpinCount : Z;
  (** returns the value found at [Destination] *)
  _InterlockedCompareExchange : world -> Z -> Z -> Z -> Z * world;
  unk_1802CCC58 : world -> Z -> world;
  sub_1800D3BF0 : world -> Z -> Z -> Z -> Z -> Z -> world;
  sub_180221640 : world -> Z -> Z -> Z -> Z -> Z -> Z -> world;
  (** [HIDWORD(x) = c] of [polyfill.h]: old value of [x], [c], new value *)
  HIDWORD_assign : Z -> Z -> Z
}.

(** ** Running a transition function *)

Section Machine.
Context {St : Type} (step : St -> St).

Fixpoint run (n : nat) (s : St) : St :=
  match n with
  | O => s
  | S n' => run n' (step s)
  end.

(** The first [n] states of the execution from [s]. *)
Fixpoint exec (n : nat) (s : St) : list St :=
  match n with
  | O => []
  | S n' => s :: exec n' (step s)
  end.

End Machine.

(** ** Definitions and uses of one variable, read off the transition function *)

Section DefUse.
Context {St Pt : Type}.
Variable at_point : St -> Pt.
Variable get : St -> Z.
Variable set : Z -> St -> St.
Variable step : St -> St.

(** The statement at [p] can change the variable. *)
Definition writes_at (p : Pt) : Prop :=
  exists s, at_point s = p /\ get (step s) <> get s.

(** The statement at [p] leaves the literal [c] in the variable. *)
Definition stores_literal (p : Pt) (c : Z) : Prop :=
  forall s, at_point s = p -> get (step s) = c.

(** The statement at [p] uses the variable: changing it on entry changes
    something other than the variable itself on exit. *)
Definition reads_at (p : Pt) : Prop :=
  exists s x, at_point s = p /\ set 0 (step (set x s)) <> set 0 (step s).

(** The spec's ControlVariable, for a variable whose statements are
    classified by [is_branch] and whose region is [in_region]: every write
    stores one of the literals 0, 1, 2 and every read is a branch condition
    of the region. *)
Definition is_control_variable (is_branch in_region : Pt -> bool) : Prop :=
  (forall p, writes_at p ->
     stores_literal p 0 \/ stores_literal p 1 \/ stores_literal p 2) /\
  (forall p, reads_at p -> is_branch p = true /\ in_region p = true).

End DefUse.

(** ** Crossings of a region boundary along a path of program points *)

Section Crossings.
Context {Pt : Type} (inside : Pt -> bool).

Fixpoint entries (ps : list Pt) : list (Pt * Pt) :=
  match ps with
  | [] => []
  | p :: tl =>
      match tl with
      | [] => []
      | q :: _ =>
          if negb (inside p) && inside q then (p, q) :: entries tl
          else entries tl
      end
  end.

Fixpoint exits (ps : list Pt) : list (Pt * Pt) :=
  match ps with
  | [] => []
  | p :: tl =>
      match tl with
      | [] => []
      | q :: _ =>
          if inside p && negb (inside q) then (p, q) :: exits tl
          else exits tl
      end
  end.

(** Every two consecutive points of the path are related by [R]. *)
Fixpoint chain (R : Pt -> Pt -> Prop) (ps : list Pt) : Prop :=
  match ps with
  | [] => True
  | p :: tl =>
      match tl with
      | [] => True
      | q :: _ => R p q /\ chain R tl
      end
  end.

End Crossings.

(** ** [unwrap_loops] (lines 9-42) *)

Module UnwrapLoops.

Inductive point : Type :=
| L15_init     (* for (i = 0;; *)
| L19          (* result = i; *)
| L20          (* if (i) break; *)
| L23          (* v2 = 0; *)
| L24          (* if (!_InterlockedCompareExchange(&g_mutex.SpinCount, 1, 0)) goto LABEL_x379; *)
| LABEL_x2B0   (* i = 1; *)
| L31          (* if (i != 1) break; *)
| L34          (* unk_1802CCC58(v2++ >= 0x20); *)
| L35          (* if (_InterlockedCompareExchange(&g_mutex.SpinCount, 1, 0)) goto LABEL_x2B0; *)
| LABEL_x379   (* ; *)
| L15_inc      (* ; i = 2) *)
| L41          (* return result; *)
| Returned.

(** The statements that are branch conditions. *)
Definition is_branch (p : point) : bool :=
  match p with
  | L20 | L24 | L31 | L35 => true
  | _ => false
  end.

(** The [for] loop of lines 15-39, the region [i] lives in. *)
Definition in_region (p : point) : bool :=
  match p with
  | L41 | Returned => false
  | _ => true
  end.

Definition halted_at (p : point) : bool :=
  match p with
  | Returned => true
  | _ => false
  end.

Record locals : Type := mkLocals {
  i : Z;
  v2 : Z;
  result : Z
}.

Section Code.
Context {world : Type} {E : Externals world}.

Record state : Type := mkState {
  pc : point;
  vars : locals;
  mem : world;
  trace : list event;
  retval : option Z
}.

Definition goto (p : point) (s : state) : state :=
  mkState p (vars s) (mem s) (trace s) (retval s).
Definition set_i (x : Z) (s : state) : state :=
  mkState (pc s) (mkLocals x (v2 (vars s)) (result (vars s)))
    (mem s) (trace s) (retval s).
Definition set_v2 (x : Z) (s : state) : state :=
  mkState (pc s) (mkLocals (i (vars s)) x (result (vars s)))
    (mem s) (trace s) (retval s).
Definition set_result (x : Z) (s : state) : state :=
  mkState (pc s) (mkLocals (i (vars s)) (v2 (vars s)) x)
    (mem s) (trace s) (retval s).
(** An external call: its log entry and the world it leaves. *)
Definition called (e : event) (w : world) (s : state) : state :=
  mkState (pc s) (vars s) w (trace s ++ [e]) (retval s).
Definition set_retval (x : Z) (s : state) : state :=
  mkState (pc s) (vars s) (mem s) (trace s) (Some x).

(** The call both conditions make, with its log entry. *)
Definition lock_cmpxchg (s : state) : Z * state :=
  let (r, w) := _InterlockedCompareExchange (mem s) g_mutex_SpinCount 1 0 in
  (r, called (Call_InterlockedCompareExchange g_mutex_SpinCount 1 0 r) w s).

Definition step (s : state) : state :=
  match pc s with
  | L15_init => goto L19 (set_i 0 s)
  | L19 => goto L20 (set_result (i (vars s)) s)
  | L20 => if negb (i (vars s) =? 0) then goto L31 s else goto L23 s
  | L23 => goto L24 (set_v2 0 s)
  | L24 =>
      let (r, s') := lock_cmpxchg s in
      if negb (c_bool (r =? 0) =? 0) then goto LABEL_x379 s'
      else goto LABEL_x2B0 s'
  | LABEL_x2B0 => goto L19 (set_i 1 s)
  | L31 => if negb (i (vars s) =? 1) then goto L41 s else goto L34 s
  | L34 =>
      let a := c_bool (v2 (vars s) >=? 0x20) in
      goto L35
        (called (Call_unk_1802CCC58 a) (unk_1802CCC58 (mem s) a)
           (set_v2 (sint32 (v2 (vars s) + 1)) s))
  | L35 =>
      let (r, s') := lock_cmpxchg s in
      if negb (r =? 0) then goto LABEL_x2B0 s' else goto LABEL_x379 s'
  | LABEL_x379 => goto L15_inc s
  | L15_inc => goto L19 (set_i 2 s)
  | L41 => goto Returned (set_retval (result (vars s)) s)
  | Returned => s
  end.

(** On entry the locals hold whatever [junk] was there. *)
Definition entry (junk : locals) (w : world) : state :=
  mkState L15_init junk w [] None.

Definition halted (s : state) : bool := halted_at (pc s).

Definition unwrap_loops (fuel : nat) (junk : locals) (w : world) : state :=
  run step fuel (entry junk w).

(** The arguments [unk_1802CCC58] was called with, in order. *)
Fixpoint backoff_args (tr : list event) : list Z :=
  match tr with
  | [] => []
  | Call_unk_1802CCC58 a :: tl => a :: backoff_args tl
  | _ :: tl => backoff_args tl
  end.

(** What the compare-and-exchange calls returned, in order. *)
Fixpoint cmpxchg_results (tr : list event) : list Z :=
  match tr with
  | [] => []
  | Call_InterlockedCompareExchange _ _ _ r :: tl => r :: cmpxchg_results tl
  | _ :: tl => cmpxchg_results tl
  end.

(** The only calls the function makes: the compare-and-exchange on
    [&g_mutex.SpinCount] with exchange 1 and comparand 0, and the backoff. *)
Definition lock_event (e : event) : Prop :=
  match e with
  | Call_InterlockedCompareExchange d x c _ =>
      d = g_mutex_SpinCount /\ x = 1 /\ c = 0
  | Call_unk_1802CCC58 _ => True
  | _ => False
  end.

(** The argument of the [k]-th backoff call, counting from 0: [v2] is
    [k] (wrapped) when it is compared with [0x20]. *)
Definition backoff_arg (k : nat) : Z := c_bool (sint32 (Z.of_nat k) >=? 0x20).

Definition nonzero (r : Z) : Prop := r <> 0.

(** Where a run can be: before the first compare-and-exchange, after a
    failed one (before or after the backoff that follows it), or after the
    successful one. *)
Section Invariant.
Variable s : state.
Let n : nat := length (backoff_args (trace s)).
Let cs : list Z := cmpxchg_results (trace s).

Definition fresh : Prop := trace s = [].
Definition retrying : Prop :=
  v2 (vars s) = sint32 (Z.of_nat n) /\ Forall nonzero cs /\ length cs = S n.
Definition backed_off : Prop :=
  v2 (vars s) = sint32 (Z.of_nat n) /\ Forall nonzero cs /\ length cs = n.
Definition acquired : Prop :=
  exists rs, cs = rs ++ [0] /\ Forall nonzero rs /\ length rs = n.

Definition spin_inv : Prop :=
  Forall lock_event (trace s) /\
  backoff_args (trace s) = map backoff_arg (seq 0 n) /\
  match pc s with
  | L15_init | L23 => fresh /\ retval s = None
  | L24 => (fresh /\ v2 (vars s) = 0) /\ retval s = None
  | L19 =>
      ((i (vars s) = 0 /\ fresh) \/ (i (vars s) = 1 /\ retrying) \/
       (i (vars s) = 2 /\ acquired)) /\ retval s = None
  | L20 =>
      (result (vars s) = i (vars s) /\
       ((i (vars s) = 0 /\ fresh) \/ (i (vars s) = 1 /\ retrying) \/
        (i (vars s) = 2 /\ acquired))) /\ retval s = None
  | L31 =>
      (result (vars s) = i (vars s) /\
       ((i (vars s) = 1 /\ retrying) \/ (i (vars s) = 2 /\ acquired))) /\
      retval s = None
  | LABEL_x2B0 | L34 => retrying /\ retval s = None
  | L35 => backed_off /\ retval s = None
  | LABEL_x379 | L15_inc => acquired /\ retval s = None
  | L41 => (result (vars s) = 2 /\ acquired) /\ retval s = None
  | Returned => acquired /\ retval s = Some 2
  end.

End Invariant.

End Code.
End UnwrapLoops.

(** ** [unwrap_loops_2] (lines 44-80) *)

Module UnwrapLoops2.

Inductive point : Type :=
| L51_init   (* for (i = 0;; *)
| L55        (* result = i; *)
| L56        (* if (i) break; *)
| L59        (* v9 = *(_DWORD * )(a2 + 0x14); *)
| L60        (* if (v9 >= n8) *)
| L61        (* i = 1; *)
| L63        (* i = 2; *)
| L66        (* if (i != 2) break; *)
| L69        (* v6 = v9 + (v9 >> 1); *)
| L70        (* if (v6 <= n8) *)
| L71        (* v6 = n8; *)
| L73        (* if (v6 < 9) *)
| L74        (* v6 = 8; *)
| L76        (* sub_1800D3BF0(6, 0x4D, 0x3B, v6, a2); *)
| L51_inc    (* ; i = 1) *)
| L79        (* return result; *)
| Returned.

Definition is_branch (p : point) : bool :=
  match p with
  | L56 | L60 | L66 | L70 | L73 => true
  | _ => false
  end.

(** The [for] loop of lines 51-77. *)
Definition in_region (p : point) : bool :=
  match p with
  | L79 | Returned => false
  | _ => true
  end.

Definition halted_at (p : point) : bool :=
  match p with
  | Returned => true
  | _ => false
  end.

Record locals : Type := mkLocals {
  i : Z;
  v9 : Z;
  v6 : Z;
  result : Z
}.

Section Code.
Context {world : Type} {E : Externals world}.

Record state : Type := mkState {
  pc : point;
  vars : locals;
  mem : world;
  trace : list event;
  retval : option Z
}.

Definition goto (p : point) (s : state) : state :=
  mkState p (vars s) (mem s) (trace s) (retval s).
Definition set_i (x : Z) (s : state) : state :=
  mkState (pc s) (mkLocals x (v9 (vars s)) (v6 (vars s)) (result (vars s)))
    (mem s) (trace s) (retval s).
Definition set_v9 (x : Z) (s : state) : state :=
  mkState (pc s) (mkLocals (i (vars s)) x (v6 (vars s)) (result (vars s)))
    (mem s) (trace s) (retval s).
Definition set_v6 (x : Z) (s : state) : state :=
  mkState (pc s) (mkLocals (i (vars s)) (v9 (vars s)) x (result (vars s)))
    (mem s) (trace s) (retval s).
Definition set_result (x : Z) (s : state) : state :=
  mkState (pc s) (mkLocals (i (vars s)) (v9 (vars s)) (v6 (vars s)) x)
    (mem s) (trace s) (retval s).
Definition called (e : event) (w : world) (s : state) : state :=
  mkState (pc s) (vars s) w (trace s ++ [e]) (retval s).
Definition set_retval (x : Z) (s : state) : state :=
  mkState (pc s) (vars s) (mem s) (trace s) (Some x).

Definition step (n8 a2 : Z) (s : state) : state :=
  match pc s with
  | L51_init => goto L55 (set_i 0 s)
  | L55 => goto L56 (set_result (i (vars s)) s)
  | L56 => if negb (i (vars s) =? 0) then goto L66 s else goto L59 s
  | L59 =>
      goto L60 (set_v9 (sint32 (load_DWORD (mem s) (sint64 (a2 + 0x14)))) s)
  | L60 => if uint32 (v9 (vars s)) >=? n8 then goto L61 s else goto L63 s
  | L61 => goto L55 (set_i 1 s)
  | L63 => goto L55 (set_i 2 s)
  | L66 => if negb (i (vars s) =? 2) then goto L79 s else goto L69 s
  | L69 =>
      goto L70 (set_v6 (sint32 (v9 (vars s) + Z.shiftr (v9 (vars s)) 1)) s)
  | L70 => if uint32 (v6 (vars s)) <=? n8 then goto L71 s else goto L73 s
  | L71 => goto L73 (set_v6 (sint32 n8) s)
  | L73 => if v6 (vars s) <? 9 then goto L74 s else goto L76 s
  | L74 => goto L76 (set_v6 8 s)
  | L76 =>
      goto L51_inc
        (called (Call_sub_1800D3BF0 6 0x4D 0x3B (v6 (vars s)) a2)
           (sub_1800D3BF0 (mem s) 6 0x4D 0x3B (v6 (vars s)) a2) s)
  | L51_inc => goto L55 (set_i 1 s)
  | L79 => goto Returned (set_retval (result (vars s)) s)
  | Returned => s
  end.

Definition entry (junk : locals) (w : world) : state :=
  mkState L51_init junk w [] None.

Definition halted (s : state) : bool := halted_at (pc s).

(** The body never uses [n0x4E] and [n0x5F]. *)
Definition unwrap_loops_2 (fuel : nat) (junk : locals) (w : world)
  (n8 a2 n0x4E n0x5F : Z) : state :=
  run (step n8 a2) fuel (entry junk w).

(** The value line 69 leaves in [v6], and the two conditional assignments
    of lines 70-71 and 73-74 as functions of the value of [v6]. *)
Definition growth (old : Z) : Z := sint32 (old + Z.shiftr old 1).
Definition clamp_requested (n8 x : Z) : Z :=
  if uint32 x <=? n8 then sint32 n8 else x.
Definition clamp_floor (x : Z) : Z := if x <? 9 then 8 else x.

(** The size arguments [sub_1800D3BF0] was called with, in order. *)
Fixpoint resize_sizes (tr : list event) : list Z :=
  match tr with
  | [] => []
  | Call_sub_1800D3BF0 _ _ _ sz _ :: tl => sz :: resize_sizes tl
  | _ :: tl => resize_sizes tl
  end.

(** The order the source applies them in, and the other order. *)
Definition clamps_implemented (n8 x : Z) : Z :=
  clamp_floor (clamp_requested n8 x).
Definition clamps_reversed (n8 x : Z) : Z :=
  clamp_requested n8 (clamp_floor x).

(** The value of [v6] each time control stands at one of the statements
    that test or pass it (lines 70, 73 and 76). *)
Definition observes_v6 (p : point) : bool :=
  match p with
  | L70 | L73 | L76 => true
  | _ => false
  end.

Definition v6_history (ss : list state) : list (point * Z) :=
  map (fun s => (pc s, v6 (vars s)))
    (filter (fun s => observes_v6 (pc s)) ss).

(** Once the call is made, control is on the way out with [i = 1]. *)
Definition after_call (s : state) : Prop :=
  length (resize_sizes (trace s)) = 1%nat /\
  match pc s with
  | L51_inc | L79 | Returned => True
  | L55 | L56 | L66 => i (vars s) = 1
  | _ => False
  end.

End Code.
End UnwrapLoops2.

(** ** [unwrap_loops_3] (lines 82-120), annotated [#wind=1] *)

Module UnwrapLoops3.

Inductive point : Type :=
| L91        (* v5 = a2; *)
| L92        (* if (a2) *)
| L94        (* v10 = 0; *)
| L95_init   (* for (HIDWORD(v7) = 2;; *)
| L97        (* v9 = v10; *)
| L98        (* sub_180221640( *(a5 + (v10 << 6) + 0x28), 0xA, 0x5E, *(... + 0x30), 0x45, v7); *)
| L105       (* HIDWORD(v8) = 3; *)
| L106       (* sub_180221640( *(a5 + (v10 << 6) + 0x10), 0x62, 0x2A, *(... + 0x18), 0x19, v8); *)
| L113       (* ++v10; *)
| L114       (* if (v9 + 1 == v5) break; *)
| L95_inc    (* ; HIDWORD(v7) = 2) *)
| L119       (* return 4; *)
| Returned.

(** The block guarded by [if (a2)], lines 93-117. *)
Definition in_protected (p : point) : bool :=
  match p with
  | L91 | L92 | L119 | Returned => false
  | _ => true
  end.

Definition halted_at (p : point) : bool :=
  match p with
  | Returned => true
  | _ => false
  end.

Definition point_eqb (p q : point) : bool :=
  match p, q with
  | L91, L91 | L92, L92 | L94, L94 | L95_init, L95_init | L97, L97
  | L98, L98 | L105, L105 | L106, L106 | L113, L113 | L114, L114
  | L95_inc, L95_inc | L119, L119 | Returned, Returned => true
  | _, _ => false
  end.

Record locals : Type := mkLocals {
  v5 : Z;
  v10 : Z;
  v7 : Z;
  v8 : Z;
  v9 : Z
}.

Section Code.
Context {world : Type} {E : Externals world}.

Record state : Type := mkState {
  pc : point;
  vars : locals;
  mem : world;
  trace : list event;
  retval : option Z
}.

Definition goto (p : point) (s : state) : state :=
  mkState p (vars s) (mem s) (trace s) (retval s).
Definition set_v5 (x : Z) (s : state) : state :=
  mkState (pc s)
    (mkLocals x (v10 (vars s)) (v7 (vars s)) (v8 (vars s)) (v9 (vars s)))
    (mem s) (trace s) (retval s).
Definition set_v10 (x : Z) (s : state) : state :=
  mkState (pc s)
    (mkLocals (v5 (vars s)) x (v7 (vars s)) (v8 (vars s)) (v9 (vars s)))
    (mem s) (trace s) (retval s).
Definition set_v7 (x : Z) (s : state) : state :=
  mkState (pc s)
    (mkLocals (v5 (vars s)) (v10 (vars s)) x (v8 (vars s)) (v9 (vars s)))
    (mem s) (trace s) (retval s).
Definition set_v8 (x : Z) (s : state) : state :=
  mkState (pc s)
    (mkLocals (v5 (vars s)) (v10 (vars s)) (v7 (vars s)) x (v9 (vars s)))
    (mem s) (trace s) (retval s).
Definition set_v9 (x : Z) (s : state) : state :=
  mkState (pc s)
    (mkLocals (v5 (vars s)) (v10 (vars s)) (v7 (vars s)) (v8 (vars s)) x)
    (mem s) (trace s) (retval s).
Definition called (e : event) (w : world) (s : state) : state :=
  mkState (pc s) (vars s) w (trace s ++ [e]) (retval s).
Definition set_retval (x : Z) (s : state) : state :=
  mkState (pc s) (vars s) (mem s) (trace s) (Some x).

(** [a5 + (v10 << 6) + off] *)
Definition element (a5 : Z) (s : state) (off : Z) : Z :=
  sint64 (sint64 (a5 + sint32 (Z.shiftl (v10 (vars s)) 6)) + off).

Definition call_sub_180221640 (x1 x2 x3 x4 x5 x6 : Z) (s : state) : state :=
  called (Call_sub_180221640 x1 x2 x3 x4 x5 x6)
    (sub_180221640 (mem s) x1 x2 x3 x4 x5 x6) s.

Definition step (a2 a5 : Z) (s : state) : state :=
  match pc s with
  | L91 => goto L92 (set_v5 (sint32 a2) s)
  | L92 => if negb (a2 =? 0) then goto L94 s else goto L119 s
  | L94 => goto L95_init (set_v10 0 s)
  | L95_init => goto L97 (set_v7 (HIDWORD_assign (v7 (vars s)) 2) s)
  | L97 => goto L98 (set_v9 (v10 (vars s)) s)
  | L98 =>
      goto L105
        (call_sub_180221640
           (load_QWORD (mem s) (element a5 s 0x28)) 0xA 0x5E
           (load_QWORD (mem s) (element a5 s 0x30)) 0x45
           (v7 (vars s)) s)
  | L105 => goto L106 (set_v8 (HIDWORD_assign (v8 (vars s)) 3) s)
  | L106 =>
      goto L113
        (call_sub_180221640
           (load_QWORD (mem s) (element a5 s 0x10)) 0x62 0x2A
           (load_QWORD (mem s) (element a5 s 0x18)) 0x19
           (v8 (vars s)) s)
  | L113 => goto L114 (set_v10 (sint32 (v10 (vars s) + 1)) s)
  | L114 =>
      if sint32 (v9 (vars s) + 1) =? v5 (vars s) then goto L119 s
      else goto L95_inc s
  | L95_inc => goto L97 (set_v7 (HIDWORD_assign (v7 (vars s)) 2) s)
  | L119 => goto Returned (set_retval 4 s)
  | Returned => s
  end.

Definition entry (junk : locals) (w : world) : state :=
  mkState L91 junk w [] None.

Definition halted (s : state) : bool := halted_at (pc s).

(** The body never uses [n0x5C], [n0x53] and [n9]. *)
Definition unwrap_loops_3 (fuel : nat) (junk : locals) (w : world)
  (n0x5C a2 n0x53 n9 a5 : Z) : state :=
  run (step a2 a5) fuel (entry junk w).

(** The states of the run that stand at point [p]. *)
Definition visits (p : point) (ss : list state) : list state :=
  filter (fun s => point_eqb (pc s) p) ss.

Definition is_call_sub_180221640 (e : event) : bool :=
  match e with
  | Call_sub_180221640 _ _ _ _ _ _ => true
  | _ => false
  end.

(** The values of the index [v10] each time control stands at [p]. *)
Definition index_at (p : point) (ss : list state) : list Z :=
  map (fun s => v10 (vars s)) (visits p ss).

(** Before the guarded block, inside it, after it. *)
Definition phase (p : point) : nat :=
  match p with
  | L91 | L92 => 0
  | L119 | Returned => 2
  | _ => 1
  end.

(** What one step may do with respect to the block: never go back to an
    earlier phase, go in only from the guard of line 92 to line 94, and go
    out only from the [break] of line 114 to line 119. *)
Definition boundary_ok (p q : point) : Prop :=
  (phase p <= phase q)%nat /\
  (in_protected p = false -> in_protected q = true -> p = L92 /\ q = L94) /\
  (in_protected p = true -> in_protected q = false -> p = L114 /\ q = L119).

End Code.
End UnwrapLoops3.

(** ** A concrete world to run the functions in

    Memory is an association list from addresses to the values stored
    there; [contention] lists what other threads leave in the lock word
    before each of our compare-and-exchange calls. *)

Record machine : Type := mkMachine {
  cells : list (Z * Z);
  contention : list Z
}.

Fixpoint peek (m : list (Z * Z)) (p : Z) : Z :=
  match m with
  | [] => 0
  | (q, x) :: tl => if q =? p then x else peek tl p
  end.

Definition poke (m : list (Z * Z)) (p x : Z) : list (Z * Z) := (p, x) :: m.

Definition machine_cmpxchg (w : machine) (dest exch comp : Z) : Z * machine :=
  let '(m, rest) :=
    match contention w with
    | [] => (cells w, [])
    | x :: rest => (poke (cells w) dest x, rest)
    end in
  let found := peek m dest in
  (found, mkMachine (if found =? comp then poke m dest exch else m) rest).

#[export] Instance machine_externals : Externals machine := {
  load_DWORD w p := uint32 (peek (cells w) p);
  load_QWORD w p := peek (cells w) p mod 2 ^ 64;
  g_mutex_SpinCount := 0x1802F0028;
  _InterlockedCompareExchange := machine_cmpxchg;
  unk_1802CCC58 w _ := w;
  sub_1800D3BF0 w _ _ _ sz p := mkMachine (poke (cells w) (p + 0x14) sz) (contention w);
  sub_180221640 w _ _ _ _ _ _ := w;
  HIDWORD_assign x _ := x
}.

Definition ul_junk : UnwrapLoops.locals := UnwrapLoops.mkLocals 7 7 7.

Definition ul3_junk : UnwrapLoops3.locals := UnwrapLoops3.mkLocals 7 7 7 7 7.

Definition ul2_junk : UnwrapLoops2.locals := UnwrapLoops2.mkLocals 7 7 7 7.


(** ** The loops, unwrapped

    The flattened functions written as the loops they encode, for
    comparison with the transition functions above. *)

Section Unwrapped.
Context {world : Type} {E : Externals world}.

(** [unwrap_loops]: try the exchange; while it fails, back off and try
    again.  [n] bounds the number of failed tries; [v2] is the retry
    counter, [tr] the calls made so far. *)
Fixpoint spin_wait (n : nat) (v2 : Z) (w : world) (tr : list event)
  : option (world * list event) :=
  let (r, w1) := _InterlockedCompareExchange w g_mutex_SpinCount 1 0 in
  let tr1 := tr ++ [Call_InterlockedCompareExchange g_mutex_SpinCount 1 0 r] in
  if r =? 0 then Some (w1, tr1)
  else
    match n with
    | O => None
    | S n' =>
        let a := c_bool (v2 >=? 0x20) in
        spin_wait n' (sint32 (v2 + 1)) (unk_1802CCC58 w1 a)
          (tr1 ++ [Call_unk_1802CCC58 a])
    end.

(** [unwrap_loops_3]: [n] passes through the body of lines 97-113, starting
    with index [k]; [v7] and [v8] are the two locals only ever touched by
    [HIDWORD(..) = ..]. *)
Fixpoint passes (n : nat) (a5 k v7 v8 : Z) (w : world) (tr : list event)
  : world * list event :=
  match n with
  | O => (w, tr)
  | S n' =>
      let base := sint64 (a5 + sint32 (Z.shiftl k 6)) in
      let x1 := load_QWORD w (sint64 (base + 0x28)) in
      let x4 := load_QWORD w (sint64 (base + 0x30)) in
      let w1 := sub_180221640 w x1 0xA 0x5E x4 0x45 v7 in
      let v8' := HIDWORD_assign v8 3 in
      let y1 := load_QWORD w1 (sint64 (base + 0x10)) in
      let y4 := load_QWORD w1 (sint64 (base + 0x18)) in
      let w2 := sub_180221640 w1 y1 0x62 0x2A y4 0x19 v8' in
      passes n' a5 (sint32 (k + 1)) (HIDWORD_assign v7 2) v8' w2
        (tr ++ [Call_sub_180221640 x1 0xA 0x5E x4 0x45 v7;
                Call_sub_180221640 y1 0x62 0x2A y4 0x19 v8'])
  end.

(** Two states of [unwrap_loops_2] that differ at most in [v6], and in [v6]
    only where control is at a statement from which [v6] is written
    before it is read. *)
Definition v6_dead (p : UnwrapLoops2.point) : bool :=
  match p with
  | UnwrapLoops2.L70 | UnwrapLoops2.L71 | UnwrapLoops2.L73
  | UnwrapLoops2.L74 | UnwrapLoops2.L76 | UnwrapLoops2.L51_inc => false
  | _ => true
  end.

Definition same_but_dead_v6
  (s s' : UnwrapLoops2.state (world := world)) : Prop :=
  UnwrapLoops2.pc s = UnwrapLoops2.pc s' /\
  UnwrapLoops2.mem s = UnwrapLoops2.mem s' /\
  UnwrapLoops2.trace s = UnwrapLoops2.trace s' /\
  UnwrapLoops2.retval s = UnwrapLoops2.retval s' /\
  UnwrapLoops2.i (UnwrapLoops2.vars s) = UnwrapLoops2.i (UnwrapLoops2.vars s') /\
  UnwrapLoops2.v9 (UnwrapLoops2.vars s) =
    UnwrapLoops2.v9 (UnwrapLoops2.vars s') /\
  UnwrapLoops2.result (UnwrapLoops2.vars s) =
    UnwrapLoops2.result (UnwrapLoops2.vars s') /\
  (UnwrapLoops2.v6 (UnwrapLoops2.vars s) =
     UnwrapLoops2.v6 (UnwrapLoops2.vars s') \/
   v6_dead (UnwrapLoops2.pc s) = true).

End Unwrapped.

(** The sixth arguments of the calls of [sub_180221640] in a trace, and
    what [n] passes of the loop hand over there: the entry contents [x7] of
    [v7] and [x8] of [v8], updated by [HIDWORD(v7) = 2] and
    [HIDWORD(v8) = 3] once more in every pass. *)
Definition sixth_args (tr : list event) : list Z :=
  flat_map (fun e => match e with
                     | Call_sub_180221640 _ _ _ _ _ a6 => [a6]
                     | _ => []
                     end) tr.

Definition sixth_args_of_passes {world : Type} {E : Externals world}
  (n : nat) (x7 x8 : Z) : list Z :=
  flat_map (fun j => [Nat.iter (S j) (fun x => HIDWORD_assign x 2) x7;
                      Nat.iter (S j) (fun x => HIDWORD_assign x 3) x8])
    (seq 0 n).

(** The concrete world once more, with [HIDWORD(x) = c] taking effect on
    the [int] it is applied to: [x] holds [c] afterwards. *)
Definition assigning_externals : Externals machine := {|
  load_DWORD := load_DWORD (Externals := machine_externals);
  load_QWORD := load_QWORD (Externals := machine_externals);
  g_mutex_SpinCount := g_mutex_SpinCount (Externals := machine_externals);
  _InterlockedCompareExchange := machine_cmpxchg;
  unk_1802CCC58 := unk_1802CCC58 (Externals := machine_externals);
  sub_1800D3BF0 := sub_1800D3BF0 (Externals := machine_externals);
  sub_180221640 := sub_180221640 (Externals := machine_externals);
  HIDWORD_assign := fun _ c => c
|}.
(** * Properties *)

Arguments uint32 : simpl never.
Arguments sint32 : simpl never.
Arguments sint64 : simpl never.

(** ** Machine integers *)

Lemma sint32_range (z : Z) : - 2 ^ 31 <= sint32 z < 2 ^ 31.
Proof. unfold sint32. pose proof (Z.mod_pos_bound (z + 2 ^ 31) (2 ^ 32)). lia. Qed.

Lemma uint32_range (z : Z) : 0 <= uint32 z < 2 ^ 32.
Proof. unfold uint32. apply Z.mod_pos_bound. lia. Qed.

Lemma sint32_small (z : Z) : - 2 ^ 31 <= z < 2 ^ 31 -> sint32 z = z.
Proof. intros H. unfold sint32. rewrite Z.mod_small; lia. Qed.

Lemma uint32_small (z : Z) : 0 <= z < 2 ^ 32 -> uint32 z = z.
Proof. intros H. unfold uint32. now apply Z.mod_small. Qed.

Lemma uint32_sint32 (z : Z) : uint32 (sint32 z) = uint32 z.
Proof.
unfold uint32, sint32.
rewrite Zminus_mod, Zmod_mod, <- Zminus_mod.
f_equal. lia.
Qed.

Lemma sint32_eq_iff (x y : Z) : sint32 x = sint32 y <-> uint32 x = uint32 y.
Proof.
split; intros H.
- rewrite <- (uint32_sint32 x), <- (uint32_sint32 y). now rewrite H.
- unfold sint32, uint32 in *.
  assert (Hx : (x + 2 ^ 31) mod 2 ^ 32 = (x mod 2 ^ 32 + 2 ^ 31) mod 2 ^ 32)
    by (rewrite Zplus_mod_idemp_l; reflexivity).
  assert (Hy : (y + 2 ^ 31) mod 2 ^ 32 = (y mod 2 ^ 32 + 2 ^ 31) mod 2 ^ 32)
    by (rewrite Zplus_mod_idemp_l; reflexivity).
  rewrite Hx, Hy, H. reflexivity.
Qed.

Lemma sint32_add_l (x y : Z) : sint32 (sint32 x + y) = sint32 (x + y).
Proof.
apply sint32_eq_iff. unfold uint32.
rewrite Zplus_mod, (Zplus_mod x y).
change ((sint32 x) mod 2 ^ 32) with (uint32 (sint32 x)).
rewrite uint32_sint32. reflexivity.
Qed.

(** A negative [int] is at least [2^31] once converted to [unsigned]. *)
Lemma uint32_neg (z : Z) : - 2 ^ 31 <= z < 0 -> uint32 z = z + 2 ^ 32.
Proof.
intros H. unfold uint32.
replace z with (z + 2 ^ 32 + (-1) * 2 ^ 32) at 1 by lia.
rewrite Z_mod_plus_full. apply Z.mod_small. lia.
Qed.

(** Halving by shift rounds down, C division truncates: they differ on
    negative odd numbers only. *)
Lemma floor_vs_trunc_half (x : Z) :
  (x + x / 2) mod 2 ^ 32 = (x + Z.quot x 2) mod 2 ^ 32 <-> 0 <= x \/ Z.even x = true.
Proof.
rewrite Z.even_spec.
assert (Hq : Z.quot x 2 = x / 2 \/ (x < 0 /\ Z.Odd x /\ Z.quot x 2 = x / 2 + 1)).
{ pose proof (Z.quot_rem' x 2) as Hqr.
  pose proof (Z.div_mod x 2 ltac:(lia)) as Hdm.
  pose proof (Z.mod_pos_bound x 2 ltac:(lia)) as Hmb.
  destruct (Z_lt_le_dec x 0) as [Hneg | Hpos].
  - pose proof (Z.rem_bound_pos_neg x 2 ltac:(lia) ltac:(lia)) as Hrb.
    destruct (Z.eq_dec (x mod 2) 0) as [e | ne].
    + left. lia.
    + right. split; [lia | split; [exists (x / 2); lia | lia]].
  - left. apply Z.quot_div_nonneg; lia. }
destruct Hq as [Hq | (Hneg & Hodd & Hq)]; rewrite Hq.
- split; auto. intros _.
  destruct (Z_lt_le_dec x 0); [right | left; lia].
  pose proof (Z.quot_rem' x 2) as Hqr.
  pose proof (Z.div_mod x 2 ltac:(lia)) as Hdm.
  pose proof (Z.mod_pos_bound x 2 ltac:(lia)) as Hmb.
  pose proof (Z.rem_bound_pos_neg x 2 ltac:(lia) ltac:(lia)) as Hrb.
  exists (x / 2). lia.
- split.
  + intros Heq. exfalso.
    assert (H1 : ((x + (x / 2 + 1)) - (x + x / 2)) mod 2 ^ 32 = 0).
    { rewrite Zminus_mod, Heq, Z.sub_diag. reflexivity. }
    replace (x + (x / 2 + 1) - (x + x / 2)) with 1 in H1 by lia.
    discriminate H1.
  + intros [H | H]; [lia |].
    exfalso. destruct H as [k Hk], Hodd as [j Hj]. lia.
Qed.

(** ** Runs *)

Section MachineFacts.
Context {St : Type} (step : St -> St).

Lemma run_unfold (n : nat) (s : St) : run step (S n) s = run step n (step s).
Proof. reflexivity. Qed.

Lemma exec_unfold (n : nat) (s : St) :
  exec step (S n) s = s :: exec step n (step s).
Proof. reflexivity. Qed.

Lemma run_add (n m : nat) (s : St) :
  run step (n + m) s = run step m (run step n s).
Proof. revert s; induction n; intros s; simpl; auto. Qed.

Lemma run_S_out (n : nat) (s : St) : run step (S n) s = step (run step n s).
Proof.
replace (S n) with (n + 1)%nat by lia.
now rewrite run_add.
Qed.

Lemma exec_app (n m : nat) (s : St) :
  exec step (n + m) s = exec step n s ++ exec step m (run step n s).
Proof. revert s; induction n; intros s; simpl; auto. now rewrite IHn. Qed.

Lemma exec_length (n : nat) (s : St) : length (exec step n s) = n.
Proof. revert s; induction n; intros s; simpl; auto. Qed.

Lemma run_fixed (n : nat) (s : St) : step s = s -> run step n s = s.
Proof. intros H; induction n; simpl; auto. now rewrite H. Qed.

Lemma exec_fixed (n : nat) (s : St) : step s = s -> exec step n s = repeat s n.
Proof. intros H; induction n; simpl; auto. now rewrite H, IHn. Qed.

Lemma run_invariant (P : St -> Prop) :
  (forall s, P s -> P (step s)) -> forall n s, P s -> P (run step n s).
Proof. intros Hstep n; induction n; simpl; auto. Qed.

Lemma filter_repeat_false (f : St -> bool) (s : St) (n : nat) :
  f s = false -> filter f (repeat s n) = [].
Proof. intros H; induction n; simpl; auto. now rewrite H. Qed.

End MachineFacts.

(** ** Paths and region boundaries *)

Section CrossingFacts.
Context {Pt : Type} (inside : Pt -> bool).

Lemma last_cons (ps : list Pt) (q p : Pt) : last (q :: ps) p = last ps q.
Proof.
revert q p. induction ps as [|r ps IH]; intros q p; [reflexivity |].
change (last (q :: r :: ps) p) with (last (r :: ps) p).
now rewrite (IH r p), (IH r q).
Qed.

(** Entries and exits balance out along any path. *)
Lemma crossings_balance (ps : list Pt) (p : Pt) :
  (length (entries inside (p :: ps)) + Nat.b2n (inside p) =
   length (exits inside (p :: ps)) + Nat.b2n (inside (last ps p)))%nat.
Proof.
revert p. induction ps as [|q ps IH]; intros p.
- reflexivity.
- specialize (IH q). rewrite last_cons.
  cbn [entries exits] in *.
  destruct (inside p), (inside q); cbn [negb andb length Nat.b2n] in *; lia.
Qed.

Lemma entries_chain (R : Pt -> Pt -> Prop) (ps : list Pt) :
  chain R ps ->
  forall p q, In (p, q) (entries inside ps) ->
  R p q /\ inside p = false /\ inside q = true.
Proof.
induction ps as [|a ps IH]; intros Hc p q Hin; [contradiction |].
destruct ps as [|b ps]; [contradiction |].
change (R a b /\ chain R (b :: ps)) in Hc. destruct Hc as [Hab Hc].
change (entries inside (a :: b :: ps))
  with (if negb (inside a) && inside b
        then (a, b) :: entries inside (b :: ps)
        else entries inside (b :: ps)) in Hin.
destruct (inside a) eqn:Ha, (inside b) eqn:Hb; cbn [negb andb] in Hin;
  try (apply (IH Hc); exact Hin).
destruct Hin as [Heq | Hin]; [| apply (IH Hc); exact Hin].
injection Heq as <- <-. auto.
Qed.

Lemma exits_chain (R : Pt -> Pt -> Prop) (ps : list Pt) :
  chain R ps ->
  forall p q, In (p, q) (exits inside ps) ->
  R p q /\ inside p = true /\ inside q = false.
Proof.
induction ps as [|a ps IH]; intros Hc p q Hin; [contradiction |].
destruct ps as [|b ps]; [contradiction |].
change (R a b /\ chain R (b :: ps)) in Hc. destruct Hc as [Hab Hc].
change (exits inside (a :: b :: ps))
  with (if inside a && negb (inside b)
        then (a, b) :: exits inside (b :: ps)
        else exits inside (b :: ps)) in Hin.
destruct (inside a) eqn:Ha, (inside b) eqn:Hb; cbn [negb andb] in Hin;
  try (apply (IH Hc); exact Hin).
destruct Hin as [Heq | Hin]; [| apply (IH Hc); exact Hin].
injection Heq as <- <-. auto.
Qed.

(** A crossing found in a prefix of the path is still there in the path. *)
Lemma entries_prefix (l1 l2 : list Pt) (pq : Pt * Pt) :
  In pq (entries inside l1) -> In pq (entries inside (l1 ++ l2)).
Proof.
induction l1 as [|a l1 IH]; intros Hin; [contradiction |].
destruct l1 as [|b l1]; [contradiction |].
cbn [entries app] in *.
destruct (negb (inside a) && inside b).
- destruct Hin as [<- | Hin]; [now left | right; apply IH; exact Hin].
- apply IH; exact Hin.
Qed.

End CrossingFacts.

Section PathFacts.
Context {St Pt : Type} (step : St -> St) (at_point : St -> Pt).

Lemma chain_exec (R : Pt -> Pt -> Prop) :
  (forall s, R (at_point s) (at_point (step s))) ->
  forall n s, chain R (map at_point (exec step n s)).
Proof.
intros HR n. induction n as [|n IH]; intros s; [exact I |].
destruct n as [|n]; [exact I |].
specialize (IH (step s)). cbn [exec map chain] in *. auto.
Qed.

Lemma last_exec (n : nat) (s d : St) :
  last (exec step (S n) s) d = run step n s.
Proof.
revert s d. induction n as [|n IH]; intros s d; [reflexivity |].
rewrite exec_unfold, last_cons. cbn [run]. apply IH.
Qed.

Lemma last_map_point (l : list St) (d : St) :
  last (map at_point l) (at_point d) = at_point (last l d).
Proof.
revert d. induction l as [|x l IH]; intros d; [reflexivity |].
cbn [map]. rewrite !last_cons. apply IH.
Qed.

(** Entries and exits of a run balance out between its first and its
    last state. *)
Lemma crossings_balance_exec (inside : Pt -> bool) (n : nat) (s : St) :
  (length (entries inside (map at_point (exec step (S n) s))) +
   Nat.b2n (inside (at_point s)) =
   length (exits inside (map at_point (exec step (S n) s))) +
   Nat.b2n (inside (at_point (run step n s))))%nat.
Proof.
cbn [exec map]. rewrite crossings_balance. do 2 f_equal.
rewrite <- (last_exec n s s). cbn [exec].
now rewrite last_cons, last_map_point.
Qed.

Lemma exec_invariant (P : St -> Prop) :
  (forall s, P s -> P (step s)) ->
  forall n s, P s -> Forall P (exec step n s).
Proof.
intros Hstep n. induction n as [|n IH]; intros s Hs; cbn [exec]; auto.
Qed.

(** Once a state is reached that the step function leaves alone, more fuel
    changes nothing. *)
Lemma run_settled (n m : nat) (s : St) :
  step (run step n s) = run step n s -> (n <= m)%nat ->
  run step m s = run step n s.
Proof.
intros Hfix Hle. replace m with (n + (m - n))%nat by lia.
rewrite run_add. now apply run_fixed.
Qed.

Lemma exec_settled (n m : nat) (s : St) :
  step (run step n s) = run step n s -> (n <= m)%nat ->
  exec step m s = exec step n s ++ repeat (run step n s) (m - n).
Proof.
intros Hfix Hle. replace m with (n + (m - n))%nat at 1 by lia.
rewrite exec_app. f_equal. now apply exec_fixed.
Qed.

End PathFacts.

(** ** [unwrap_loops] *)

Section UnwrapLoopsFacts.
Import UnwrapLoops.
Context {world : Type} {E : Externals world}.

Lemma backoff_args_app (tr1 tr2 : list event) :
  backoff_args (tr1 ++ tr2) = backoff_args tr1 ++ backoff_args tr2.
Proof.
induction tr1 as [|e tr1 IH]; simpl; auto.
destruct e; simpl; auto. now rewrite IH.
Qed.

Lemma cmpxchg_results_app (tr1 tr2 : list event) :
  cmpxchg_results (tr1 ++ tr2) = cmpxchg_results tr1 ++ cmpxchg_results tr2.
Proof.
induction tr1 as [|e tr1 IH]; simpl; auto.
destruct e; simpl; auto. now rewrite IH.
Qed.

Lemma backoff_arg_next (n : nat) :
  map backoff_arg (seq 0 (S n)) = map backoff_arg (seq 0 n) ++ [backoff_arg n].
Proof. rewrite seq_S, map_app. reflexivity. Qed.

Lemma sint32_succ (n : nat) :
  sint32 (sint32 (Z.of_nat n) + 1) = sint32 (Z.of_nat (S n)).
Proof. rewrite sint32_add_l. f_equal. lia. Qed.

Lemma spin_inv_entry (junk : locals) (w : world) : spin_inv (entry junk w).
Proof. unfold spin_inv, entry, fresh; cbn. auto. Qed.

Lemma lock_event_snoc (tr : list event) (e : event) :
  Forall lock_event tr -> lock_event e -> Forall lock_event (tr ++ [e]).
Proof. intros H He. apply Forall_app. split; auto. Qed.

#[local] Hint Constructors Forall : core.

Lemma nonzero_snoc (cs : list Z) (r : Z) :
  Forall nonzero cs -> (r =? 0) = false -> Forall nonzero (cs ++ [r]).
Proof.
intros H Hr. apply Forall_app. split; auto.
constructor; auto. now apply Z.eqb_neq.
Qed.

Ltac unpack :=
  repeat match goal with
         | H : _ /\ _ |- _ => destruct H
         | H : exists _, _ |- _ => destruct H
         | H : _ \/ _ |- _ => destruct H
         | H : negb _ = true |- _ => apply negb_true_iff in H
         | H : negb _ = false |- _ => apply negb_false_iff in H
         | H : (c_bool (?r =? 0) =? 0) = _ |- _ =>
             destruct (r =? 0) eqn:?; cbn in H; try discriminate H; clear H
         | H : (_ =? _) = true |- _ => apply Z.eqb_eq in H
         end;
  subst.

Lemma spin_inv_step (s : state) : spin_inv s -> spin_inv (step s).
Proof.
destruct s as [p [i0 x2 r0] m tr rv].
intros Hinv. unfold step, lock_cmpxchg.
destruct p; cbn [pc vars mem i v2 result];
  try destruct (_InterlockedCompareExchange m g_mutex_SpinCount 1 0) as [r m'];
  repeat match goal with
         | |- context [if ?c then _ else _] => destruct c eqn:?
         end;
  revert Hinv;
  unfold spin_inv, fresh, retrying, backed_off, acquired, goto, set_i, set_v2,
    set_result, set_retval, called;
  cbn [pc vars trace retval mem i v2 result];
  intros (Hev & Hargs & Hpc);
  rewrite ?backoff_args_app, ?cmpxchg_results_app;
  cbn [backoff_args cmpxchg_results];
  rewrite ?app_nil_r.
all: try (repeat split; try tauto; fail).
all: unpack; try discriminate; try lia.
all: repeat match goal with
            | |- _ /\ _ => split
            | |- Forall lock_event (_ ++ [_]) =>
                apply lock_event_snoc; [assumption | cbn; auto]
            | |- Forall nonzero (_ ++ [_]) =>
                apply nonzero_snoc; [auto | assumption]
            end; auto.
all: rewrite ?length_app; cbn [length cmpxchg_results backoff_args app];
  rewrite ?Nat.add_1_r.
all: try lia.
all: try (eexists; split; [eassumption | split; assumption]; fail).
all: try (right; split; [reflexivity |];
          eexists; split; [eassumption | split; assumption]; fail).
- exists []. repeat split; auto.
- rewrite backoff_arg_next, <- Hargs. reflexivity.
- apply sint32_succ.
- eexists; split; [reflexivity | split; assumption].
Qed.

Lemma spin_inv_run (fuel : nat) (junk : locals) (w : world) :
  spin_inv (unwrap_loops fuel junk w).
Proof.
apply (run_invariant step spin_inv).
- apply spin_inv_step.
- apply spin_inv_entry.
Qed.

(** Both conditions make the same call and send control to the same
    places: [LABEL_x2B0] when the lock was not free, [LABEL_x379] when it
    was. *)
Lemma step_cmpxchg (s : state) :
  pc s = L24 \/ pc s = L35 ->
  step s =
    let (r, w) := _InterlockedCompareExchange (mem s) g_mutex_SpinCount 1 0 in
    goto (if r =? 0 then LABEL_x379 else LABEL_x2B0)
      (called (Call_InterlockedCompareExchange g_mutex_SpinCount 1 0 r) w s).
Proof.
intros [H | H]; unfold step, lock_cmpxchg; rewrite H;
  destruct (_InterlockedCompareExchange (mem s) g_mutex_SpinCount 1 0)
    as [r w];
  destruct (r =? 0); reflexivity.
Qed.

Ltac advance1 :=
  match goal with
  | |- context [run ?f (S ?n) ?s] =>
      let s' := eval lazy -[sint32 Z.add Z.geb app] in (f s) in
      rewrite (run_unfold f n s); change (f s) with s'
  end.

(** A failed compare-and-exchange, at either of the two places, leads back
    to line 35 through one backoff call with the counter tested and bumped. *)
Lemma retry_cycle (s : state) :
  pc s = L24 \/ pc s = L35 ->
  fst (_InterlockedCompareExchange (mem s) g_mutex_SpinCount 1 0) <> 0 ->
  let r := fst (_InterlockedCompareExchange (mem s) g_mutex_SpinCount 1 0) in
  let s' := run step 6 s in
  pc s' = L35 /\
  v2 (vars s') = sint32 (v2 (vars s) + 1) /\
  trace s' =
    trace s ++
      [Call_InterlockedCompareExchange g_mutex_SpinCount 1 0 r;
       Call_unk_1802CCC58 (c_bool (v2 (vars s) >=? 0x20))].
Proof.
cbv zeta. intros Hpc Hr. apply Z.eqb_neq in Hr.
rewrite run_unfold, (step_cmpxchg s Hpc).
destruct s as [p [i0 x2 r0] m tr rv]. cbn [pc mem vars v2 trace] in *.
destruct (_InterlockedCompareExchange m g_mutex_SpinCount 1 0) as [r m'].
cbn [fst] in *. rewrite Hr.
unfold goto, called. cbn [pc mem vars v2 trace retval].
repeat advance1. cbn [run pc mem vars v2 trace].
rewrite <- app_assoc. auto.
Qed.

(** A successful one leads to the return, seven steps later, with 2. *)
Lemma acquire_exit (s : state) :
  pc s = L24 \/ pc s = L35 ->
  fst (_InterlockedCompareExchange (mem s) g_mutex_SpinCount 1 0) = 0 ->
  let s' := run step 7 s in
  pc s' = Returned /\ retval s' = Some 2 /\
  trace s' =
    trace s ++ [Call_InterlockedCompareExchange g_mutex_SpinCount 1 0 0].
Proof.
cbv zeta. intros Hpc Hr.
rewrite run_unfold, (step_cmpxchg s Hpc).
destruct s as [p [i0 x2 r0] m tr rv]. cbn [pc mem vars v2 trace] in *.
destruct (_InterlockedCompareExchange m g_mutex_SpinCount 1 0) as [r m'].
cbn [fst] in *. rewrite Hr.
unfold goto, called. cbn [pc mem vars v2 trace retval Z.eqb].
repeat advance1. cbn [run pc mem vars v2 trace retval]. auto.
Qed.

End UnwrapLoopsFacts.

Section UnwrapLoopsClaims.
Import UnwrapLoops.
Context {world : Type} {E : Externals world}.

(** C3: every call the spin loop makes is the compare-and-exchange on
    [&g_mutex.SpinCount] with exchange 1 and comparand 0, or the backoff;
    when the exchange fails (at line 24 or line 35) control comes back to
    line 35 after one backoff call whose argument is [v2 >= 0x20], with
    [v2] incremented; at the [k]-th backoff call (from 0) the counter [v2]
    is [k], and the argument is non-zero exactly when the counter is at
    least 32: it is 0 for [k < 32] and 1 from [k = 32] on (up to the
    [2^31 - 1] retries an [int] counter can count). *)
Theorem spin_wait_threshold (junk : locals) (w : world) (fuel : nat) :
  let tr := trace (unwrap_loops fuel junk w) in
  Forall lock_event tr /\
  (forall s,
     pc s = L24 \/ pc s = L35 ->
     fst (_InterlockedCompareExchange (mem s) g_mutex_SpinCount 1 0) <> 0 ->
     pc (run step 6 s) = L35 /\
     v2 (vars (run step 6 s)) = sint32 (v2 (vars s) + 1) /\
     trace (run step 6 s) =
       trace s ++
         [Call_InterlockedCompareExchange g_mutex_SpinCount 1 0
            (fst (_InterlockedCompareExchange (mem s) g_mutex_SpinCount 1 0));
          Call_unk_1802CCC58 (c_bool (v2 (vars s) >=? 0x20))]) /\
  (forall k a,
     nth_error (backoff_args tr) k = Some a ->
     let counter := sint32 (Z.of_nat k) in
     a = c_bool (counter >=? 0x20) /\
     (a <> 0 <-> 0x20 <= counter) /\
     ((k < 32)%nat -> a = 0) /\
     ((32 <= k)%nat -> Z.of_nat k < 2 ^ 31 -> a = 1)).
Proof.
intros tr.
destruct (spin_inv_run fuel junk w) as (Hev & Hargs & _).
fold tr in Hev, Hargs.
split; [exact Hev | split].
- intros s Hpc Hr. exact (retry_cycle s Hpc Hr).
- intros k a Hk.
  rewrite Hargs, nth_error_map, nth_error_seq in Hk.
  destruct (k <? length (backoff_args tr))%nat; [| discriminate].
  cbn in Hk. injection Hk as <-.
  unfold backoff_arg. split; [reflexivity | split; [| split]].
  + destruct (sint32 (Z.of_nat k) >=? 32) eqn:Hc; cbn [c_bool];
      split; intros H; try lia; congruence.
  + intros Hlt. rewrite sint32_small by lia.
    destruct (Z.of_nat k >=? 32) eqn:Hc; [lia | reflexivity].
  + intros Hge Hlt. rewrite sint32_small by lia.
    destruct (Z.of_nat k >=? 32) eqn:Hc; [reflexivity | lia].
Qed.

(** C4: the test before the loop (line 24) and the test at the latch
    (line 35) are the same condition: from the same state they make the
    same call, with the same operands, and go to the same place, back to
    [LABEL_x2B0] exactly when the exchange found the lock word non-zero. *)
Theorem priming_and_latch_agree (s : state) :
  step (goto L24 s) = step (goto L35 s) /\
  (pc (step (goto L24 s)) = LABEL_x2B0 <->
   fst (_InterlockedCompareExchange (mem s) g_mutex_SpinCount 1 0) <> 0) /\
  (pc (step (goto L35 s)) = LABEL_x2B0 <->
   fst (_InterlockedCompareExchange (mem s) g_mutex_SpinCount 1 0) <> 0) /\
  trace (step (goto L24 s)) =
    trace s ++
      [Call_InterlockedCompareExchange g_mutex_SpinCount 1 0
         (fst (_InterlockedCompareExchange (mem s) g_mutex_SpinCount 1 0))].
Proof.
rewrite (step_cmpxchg (goto L24 s)), (step_cmpxchg (goto L35 s))
  by (cbn; auto).
cbn [mem goto].
destruct (_InterlockedCompareExchange (mem s) g_mutex_SpinCount 1 0)
  as [r w'].
cbn [fst]. unfold goto, called. cbn [pc vars mem trace retval].
destruct (r =? 0) eqn:Hr;
  [apply Z.eqb_eq in Hr | apply Z.eqb_neq in Hr];
  repeat split; intros; try reflexivity; try assumption; try congruence;
  try discriminate.
Qed.

End UnwrapLoopsClaims.

(** Thirty-four failed exchanges, then a successful one: the backoff call
    number 32 is the first with argument 1. *)
Lemma spin_wait_threshold_witness :
  nth_error
    (UnwrapLoops.backoff_args
       (UnwrapLoops.trace
          (UnwrapLoops.unwrap_loops 250 ul_junk
             (mkMachine [] (repeat 1 34 ++ [0])))))
    32 = Some 1 /\
  (32 <= 32)%nat /\ Z.of_nat 32 < 2 ^ 31 /\
  1 = c_bool (sint32 (Z.of_nat 32) >=? 0x20).
Proof.
split; [vm_compute; reflexivity | split; [lia | split; [reflexivity |]]].
destruct (spin_wait_threshold ul_junk (mkMachine [] (repeat 1 34 ++ [0])) 250)
  as (_ & _ & H).
refine (proj1 (H 32%nat 1 _)). vm_compute; reflexivity.
Defined.

(** ** [unwrap_loops_2] *)

Section UnwrapLoops2Facts.
Import UnwrapLoops2.
Context {world : Type} {E : Externals world}.
Variables (junk : locals) (w : world) (n8 a2 n0x4E n0x5F : Z).

(** The stored old size, as line 59 reads it into [v9]. *)
Local Notation "'old'" := (sint32 (load_DWORD w (sint64 (a2 + 0x14))))
  (only parsing).

(** Symbolic execution, one statement at a time; a branch whose condition
    is not decided yet is left for the caller to split. *)
Ltac advance :=
  match goal with
  | |- context [run ?f (S ?n) ?s] =>
      let s' := eval lazy -[sint32 uint32 sint64 Z.add Z.shiftr Z.geb Z.leb
                            Z.ltb load_DWORD sub_1800D3BF0] in (f s) in
      rewrite (run_unfold f n s); change (f s) with s'
  | |- context [exec ?f (S ?n) ?s] =>
      let s' := eval lazy -[sint32 uint32 sint64 Z.add Z.shiftr Z.geb Z.leb
                            Z.ltb load_DWORD sub_1800D3BF0] in (f s) in
      rewrite (exec_unfold f n s); change (f s) with s'
  end.

Ltac split_branch :=
  match goal with
  | H : ?c = _ |- context [if ?c then _ else _] => rewrite H
  | |- context [if ?c then _ else _] => destruct c eqn:?
  end.

Ltac symbolic_run :=
  repeat (advance; repeat split_branch); cbn [run exec].

(** When the stored size already covers the request the function returns
    after ten steps without calling anything. *)
Lemma unwrap_loops_2_enough :
  (uint32 old >=? n8) = true ->
  run (step n8 a2) 20 (entry junk w) =
    mkState Returned (mkLocals 1 old (v6 junk) 1) w [] (Some 1) /\
  v6_history (exec (step n8 a2) 20 (entry junk w)) = [].
Proof.
intros H. unfold entry, v6_history.
split; symbolic_run; reflexivity.
Qed.

(** Otherwise it calls [sub_1800D3BF0] once, with the grown and clamped
    size, and [v6] goes through the three computations in source order. *)
Lemma unwrap_loops_2_grow :
  (uint32 old >=? n8) = false ->
  let sz := clamps_implemented n8 (growth old) in
  run (step n8 a2) 20 (entry junk w) =
    mkState Returned (mkLocals 1 old sz 1)
      (sub_1800D3BF0 w 6 0x4D 0x3B sz a2)
      [Call_sub_1800D3BF0 6 0x4D 0x3B sz a2] (Some 1) /\
  v6_history (exec (step n8 a2) 20 (entry junk w)) =
    [(L70, growth old); (L73, clamp_requested n8 (growth old)); (L76, sz)].
Proof.
intros H. unfold entry, v6_history, clamps_implemented, clamp_floor, clamp_requested, growth.
cbv zeta.
split; symbolic_run; reflexivity.
Qed.

Lemma unwrap_loops_2_returns :
  pc (run (step n8 a2) 20 (entry junk w)) = Returned.
Proof.
destruct (uint32 old >=? n8) eqn:H.
- now rewrite (proj1 (unwrap_loops_2_enough H)).
- now rewrite (proj1 (unwrap_loops_2_grow H)).
Qed.

Lemma step_Returned (s : state) : pc s = Returned -> step n8 a2 s = s.
Proof. intros H. unfold step. now rewrite H. Qed.

(** Twenty steps are enough: more fuel changes nothing. *)
Lemma unwrap_loops_2_settled (fuel : nat) :
  (20 <= fuel)%nat ->
  run (step n8 a2) fuel (entry junk w) = run (step n8 a2) 20 (entry junk w) /\
  v6_history (exec (step n8 a2) fuel (entry junk w)) =
    v6_history (exec (step n8 a2) 20 (entry junk w)).
Proof.
intros H. replace fuel with (20 + (fuel - 20))%nat by lia.
pose proof (step_Returned _ unwrap_loops_2_returns) as Hfix.
split.
- rewrite run_add. now apply run_fixed.
- rewrite exec_app. unfold v6_history.
  rewrite filter_app, (exec_fixed _ _ _ Hfix), filter_repeat_false.
  + now rewrite app_nil_r.
  + now rewrite unwrap_loops_2_returns.
Qed.

Lemma resize_sizes_app (tr1 tr2 : list event) :
  resize_sizes (tr1 ++ tr2) = resize_sizes tr1 ++ resize_sizes tr2.
Proof.
induction tr1 as [|e tr1 IH]; simpl; auto.
destruct e; simpl; auto. now rewrite IH.
Qed.

Lemma called_at_most_once_step (s : state) :
  resize_sizes (trace s) = [] \/ after_call s ->
  resize_sizes (trace (step n8 a2 s)) = [] \/ after_call (step n8 a2 s).
Proof.
destruct s as [p [i0 x9 x6 r] m tr rv]. unfold after_call, step.
destruct p; cbn [pc vars trace i v9 v6 result mem];
  intros [H | [H1 H2]];
  repeat match goal with
         | |- context [if ?c then _ else _] => destruct c eqn:?
         end;
  cbn [pc vars trace i v9 v6 result mem goto set_i set_v9 set_v6
       set_result set_retval called];
  try rewrite resize_sizes_app; try rewrite H; auto; try tauto; try lia;
  try (right; split; [assumption | trivial]; fail).
Qed.

Lemma called_at_most_once (fuel : nat) :
  (length (resize_sizes (trace (run (step n8 a2) fuel (entry junk w)))) <= 1)%nat.
Proof.
assert (H : resize_sizes (trace (run (step n8 a2) fuel (entry junk w))) = [] \/
            after_call (run (step n8 a2) fuel (entry junk w))).
{ apply (run_invariant (step n8 a2)
           (fun s => resize_sizes (trace s) = [] \/ after_call s)).
  - apply called_at_most_once_step.
  - now left. }
destruct H as [H | [H _]]; rewrite H; simpl; lia.
Qed.

Lemma geb_false_lt (x y : Z) : (x >=? y) = false <-> x < y.
Proof. rewrite Z.geb_leb, Z.leb_gt. tauto. Qed.

End UnwrapLoops2Facts.

Section UnwrapLoops2Claims.
Import UnwrapLoops2.
Context {world : Type} {E : Externals world}.

(** C1: on the growth path the size handed to [sub_1800D3BF0] is the growth
    of the stored old size, then clamped to the requested size, then clamped
    to the floor, in that order: [v6] holds these three values at lines 70,
    73 and 76, and the last one is the argument of the only call.  With
    stored size 5 and requested size 10 the growth is 7, the first clamp
    raises it to 10, the second leaves it, and the size passed is 10. *)
Theorem unwrap_loops_2_clamp_order
  (junk : locals) (w : world) (n8 a2 n0x4E n0x5F : Z) (fuel : nat) :
  (20 <= fuel)%nat ->
  uint32 (sint32 (load_DWORD w (sint64 (a2 + 0x14)))) < n8 ->
  let old := sint32 (load_DWORD w (sint64 (a2 + 0x14))) in
  let s := unwrap_loops_2 fuel junk w n8 a2 n0x4E n0x5F in
  v6_history (exec (step n8 a2) fuel (entry junk w)) =
    [(L70, growth old);
     (L73, clamp_requested n8 (growth old));
     (L76, clamp_floor (clamp_requested n8 (growth old)))] /\
  trace s =
    [Call_sub_1800D3BF0 6 0x4D 0x3B
       (clamp_floor (clamp_requested n8 (growth old))) a2] /\
  (old = 5 -> n8 = 10 ->
   growth old = 7 /\ clamp_requested n8 7 = 10 /\ clamp_floor 10 = 10 /\
   resize_sizes (trace s) = [10]).
Proof.
intros Hfuel Hlt old s.
apply geb_false_lt in Hlt.
destruct (unwrap_loops_2_grow junk w n8 a2 Hlt) as [Hrun Hhist].
destruct (unwrap_loops_2_settled junk w n8 a2 fuel Hfuel) as [Hr Hh].
assert (Htr : trace s =
  [Call_sub_1800D3BF0 6 0x4D 0x3B
     (clamp_floor (clamp_requested n8 (growth old))) a2]).
{ unfold s, unwrap_loops_2. rewrite Hr, Hrun. reflexivity. }
split; [|split].
- rewrite Hh, Hhist. reflexivity.
- exact Htr.
- intros H5 H10. rewrite Htr. fold old. rewrite H5, H10.
  repeat split; reflexivity.
Qed.

End UnwrapLoops2Claims.

(** Stored size 5, requested size 10: the size passed is 10. *)
Lemma unwrap_loops_2_clamp_order_witness :
  (20 <= 20)%nat /\
  uint32 (sint32 (load_DWORD (mkMachine [(0x1014, 5)] []) (sint64 (0x1000 + 0x14)))) < 10 /\
  UnwrapLoops2.resize_sizes
    (UnwrapLoops2.trace
       (UnwrapLoops2.unwrap_loops_2 20 ul2_junk (mkMachine [(0x1014, 5)] [])
          10 0x1000 0x4E 0x5F)) = [10].
Proof.
split; [lia | split; [reflexivity |]].
apply (unwrap_loops_2_clamp_order ul2_junk (mkMachine [(0x1014, 5)] [])
         10 0x1000 0x4E 0x5F 20); [lia | reflexivity | reflexivity | reflexivity].
Defined.

Section ClampFacts.
Import UnwrapLoops2.

Lemma uint32_cases (g : Z) :
  - 2 ^ 31 <= g < 2 ^ 31 ->
  (0 <= g /\ uint32 g = g) \/ (g < 0 /\ uint32 g = g + 2 ^ 32).
Proof.
intros H. destruct (Z_lt_le_dec g 0).
- right. split; [lia | apply uint32_neg; lia].
- left. split; [lia | apply uint32_small; lia].
Qed.

Lemma sint32_cases (n : Z) :
  0 <= n < 2 ^ 32 ->
  (n < 2 ^ 31 /\ sint32 n = n) \/ (2 ^ 31 <= n /\ sint32 n = n - 2 ^ 32).
Proof.
intros H. destruct (Z_lt_le_dec n (2 ^ 31)).
- left. split; [lia | apply sint32_small; lia].
- right. split; [lia |]. unfold sint32.
  replace (n + 2 ^ 31) with (n - 2 ^ 31 + 1 * 2 ^ 32) by lia.
  rewrite Z_mod_plus_full, Z.mod_small; lia.
Qed.

(** When the two orders of the clamps give different sizes. *)
Lemma clamp_orders (g n8 : Z) :
  - 2 ^ 31 <= g < 2 ^ 31 -> 0 <= n8 < 2 ^ 32 ->
  (clamps_reversed n8 g <> clamps_implemented n8 g <->
   2 ^ 31 <= n8 \/ (g < 0 /\ 8 < n8)).
Proof.
intros Hg Hn.
unfold clamps_reversed, clamps_implemented, clamp_floor, clamp_requested.
destruct (uint32_cases g Hg) as [[Hg0 Eg] | [Hg0 Eg]];
  destruct (sint32_cases n8 Hn) as [[Hn0 En] | [Hn0 En]];
  rewrite Eg, En;
  destruct (g <? 9) eqn:H9;
  try (rewrite Eg); try (rewrite (uint32_small 8) by lia);
  repeat match goal with
         | |- context [if ?c then _ else _] => destruct c eqn:?
         | H : context [if ?c then _ else _] |- _ => destruct c eqn:?
         end; lia.
Qed.

End ClampFacts.

Section UnwrapLoops2Claims2.
Import UnwrapLoops2.
Context {world : Type} {E : Externals world}.

(** C2, amended: the two orders of the clamps give different sizes exactly
    when the requested size is [2^31] or more, or the growth is negative and
    the requested size is above 8; stored size 4 with requested size
    [0xFFFFFFFF] is such a case (8 as implemented, -1 reversed).  With a
    requested size at or below the floor 8 the two orders agree. *)
Theorem clamp_order_matters (old n8 : Z) :
  0 <= n8 < 2 ^ 32 ->
  (clamps_reversed n8 (growth old) <> clamps_implemented n8 (growth old) <->
   2 ^ 31 <= n8 \/ (growth old < 0 /\ 8 < n8)) /\
  (n8 <= 8 ->
   clamps_reversed n8 (growth old) = clamps_implemented n8 (growth old)) /\
  (uint32 4 < 0xFFFFFFFF /\
   clamps_implemented 0xFFFFFFFF (growth 4) = 8 /\
   clamps_reversed 0xFFFFFFFF (growth 4) = -1).
Proof.
intros Hn.
pose proof (clamp_orders (growth old) n8 (sint32_range _) Hn) as H.
split; [exact H | split].
- intros H8.
  destruct (Z.eq_dec (clamps_reversed n8 (growth old))
              (clamps_implemented n8 (growth old))) as [e | ne]; auto.
  apply H in ne. lia.
- repeat split; reflexivity.
Qed.

(** C6, amended: the value line 69 leaves in [v6] is the stored size plus
    the stored size halved rounding down (towards minus infinity), wrapped
    to 32 bits; it is the stored size plus its truncated half exactly when
    the stored size is non-negative or even. *)
Theorem growth_is_floor_half
  (junk : locals) (w : world) (n8 a2 : Z) (fuel : nat) :
  (20 <= fuel)%nat ->
  uint32 (sint32 (load_DWORD w (sint64 (a2 + 0x14)))) < n8 ->
  let old := sint32 (load_DWORD w (sint64 (a2 + 0x14))) in
  hd_error (v6_history (exec (step n8 a2) fuel (entry junk w))) =
    Some (L70, sint32 (old + old / 2)) /\
  (sint32 (old + old / 2) = sint32 (old + Z.quot old 2) <->
   0 <= old \/ Z.even old = true).
Proof.
intros Hfuel Hlt old.
apply geb_false_lt in Hlt.
destruct (unwrap_loops_2_grow junk w n8 a2 Hlt) as [_ Hhist].
destruct (unwrap_loops_2_settled junk w n8 a2 fuel Hfuel) as [_ Hh].
split.
- rewrite Hh, Hhist. fold old. unfold growth.
  rewrite Z.shiftr_div_pow2 by lia. reflexivity.
- rewrite sint32_eq_iff. unfold uint32. apply floor_vs_trunc_half.
Qed.

(** C10, amended: [sub_1800D3BF0] is called at most once, and it is called
    exactly when the stored 32-bit value, taken as unsigned, is below [n8].
    A negative stored size is its value plus [2^32] as unsigned, which is at
    least [2^31]: it suppresses the call for every [n8] up to [2^31], and
    for a larger [n8] the call is made exactly when the stored size plus
    [2^32] is below [n8]. *)
Theorem resize_called_iff_unsigned_less
  (junk : locals) (w : world) (n8 a2 n0x4E n0x5F : Z) :
  (forall fuel,
     (length (resize_sizes
        (trace (unwrap_loops_2 fuel junk w n8 a2 n0x4E n0x5F))) <= 1)%nat) /\
  (forall fuel, (20 <= fuel)%nat ->
     let s := unwrap_loops_2 fuel junk w n8 a2 n0x4E n0x5F in
     let stored := sint32 (load_DWORD w (sint64 (a2 + 0x14))) in
     halted s = true /\
     (length (resize_sizes (trace s)) = 1%nat <->
      uint32 (load_DWORD w (sint64 (a2 + 0x14))) < n8) /\
     (stored < 0 -> n8 <= 2 ^ 31 -> trace s = []) /\
     (stored < 0 ->
      (length (resize_sizes (trace s)) = 1%nat <-> stored + 2 ^ 32 < n8))).
Proof.
split.
- intros fuel. apply called_at_most_once.
- intros fuel Hfuel s stored.
  pose proof (sint32_range (load_DWORD w (sint64 (a2 + 0x14)))) as Hrange.
  fold stored in Hrange.
  destruct (unwrap_loops_2_settled junk w n8 a2 fuel Hfuel) as [Hr _].
  unfold s, unwrap_loops_2. rewrite Hr.
  rewrite <- (uint32_sint32 (load_DWORD w (sint64 (a2 + 0x14)))).
  fold stored.
  rewrite <- geb_false_lt.
  destruct (uint32 stored >=? n8) eqn:Hc.
  + rewrite (proj1 (unwrap_loops_2_enough junk w n8 a2 Hc)).
    cbn. split; [reflexivity | split; [| split]].
    * split; discriminate.
    * reflexivity.
    * intros Hneg. split; [discriminate |].
      intros Hlt. exfalso.
      apply Z.geb_le in Hc.
      rewrite uint32_neg in Hc by lia. lia.
  + rewrite (proj1 (unwrap_loops_2_grow junk w n8 a2 Hc)).
    cbn. split; [reflexivity | split; [| split]].
    * split; reflexivity.
    * intros Hneg Hn. exfalso.
      apply geb_false_lt in Hc.
      rewrite uint32_neg in Hc by lia. lia.
    * intros Hneg. split; [| reflexivity].
      intros _. apply geb_false_lt in Hc.
      rewrite uint32_neg in Hc by lia. exact Hc.
Qed.

End UnwrapLoops2Claims2.

(** C2 fails as stated: no requested size below the floor makes the order
    of the clamps matter. *)
Lemma clamp_order_irrelevant_below_floor :
  ~ (exists old n8 : Z,
       0 <= n8 < 8 /\
       UnwrapLoops2.clamps_reversed n8 (UnwrapLoops2.growth old) <>
       UnwrapLoops2.clamps_implemented n8 (UnwrapLoops2.growth old)).
Proof.
intros (old & n8 & Hn & Hne).
apply clamp_orders in Hne; [lia | apply sint32_range | lia].
Qed.

(** Stored size 4, requested size [0xFFFFFFFF]: the two orders differ. *)
Lemma clamp_order_matters_witness :
  0 <= 0xFFFFFFFF < 2 ^ 32 /\
  UnwrapLoops2.clamps_reversed 0xFFFFFFFF (UnwrapLoops2.growth 4) <>
  UnwrapLoops2.clamps_implemented 0xFFFFFFFF (UnwrapLoops2.growth 4).
Proof.
split; [lia |].
apply (clamp_order_matters 4 0xFFFFFFFF); lia.
Defined.

(** C6 fails as stated: with the stored size -3 (and [n8 = 0xFFFFFFFF], so
    that the growth path is taken) line 69 leaves -5 in [v6], not
    -3 + (-3)/2 = -4. *)
Lemma growth_not_truncating_at_minus_3 :
  sint32 (load_DWORD (mkMachine [(0x1014, 0xFFFFFFFD)] []) (sint64 (0x1000 + 0x14))) = -3 /\
  hd_error
    (UnwrapLoops2.v6_history
       (exec (UnwrapLoops2.step 0xFFFFFFFF 0x1000) 20
          (UnwrapLoops2.entry ul2_junk (mkMachine [(0x1014, 0xFFFFFFFD)] []))))
    = Some (UnwrapLoops2.L70, -5) /\
  hd_error
    (UnwrapLoops2.v6_history
       (exec (UnwrapLoops2.step 0xFFFFFFFF 0x1000) 20
          (UnwrapLoops2.entry ul2_junk (mkMachine [(0x1014, 0xFFFFFFFD)] []))))
    <> Some (UnwrapLoops2.L70, sint32 (-3 + Z.quot (-3) 2)).
Proof.
split; [reflexivity | split; [reflexivity |]].
vm_compute. discriminate.
Qed.

(** Stored size -3: line 69 leaves -5. *)
Lemma growth_is_floor_half_witness :
  (20 <= 20)%nat /\
  uint32 (sint32 (load_DWORD (mkMachine [(0x1014, 0xFFFFFFFD)] [])
                    (sint64 (0x1000 + 0x14)))) < 0xFFFFFFFF /\
  hd_error
    (UnwrapLoops2.v6_history
       (exec (UnwrapLoops2.step 0xFFFFFFFF 0x1000) 20
          (UnwrapLoops2.entry ul2_junk (mkMachine [(0x1014, 0xFFFFFFFD)] []))))
    = Some (UnwrapLoops2.L70, -5).
Proof.
split; [lia | split; [reflexivity |]].
destruct (growth_is_floor_half ul2_junk (mkMachine [(0x1014, 0xFFFFFFFD)] [])
            0xFFFFFFFF 0x1000 20) as [H _]; [lia | reflexivity |].
exact H.
Defined.

(** C10 fails as stated: the stored size [0x80000000] is negative, and with
    [n8 = 0x80000001] the growth path is taken all the same: the function
    calls [sub_1800D3BF0], with size 8. *)
Lemma negative_stored_size_can_grow :
  sint32 (load_DWORD (mkMachine [(0x1014, 0x80000000)] [])
            (sint64 (0x1000 + 0x14))) = - 2 ^ 31 /\
  UnwrapLoops2.halted
    (UnwrapLoops2.unwrap_loops_2 20 ul2_junk
       (mkMachine [(0x1014, 0x80000000)] []) 0x80000001 0x1000 0x4E 0x5F)
    = true /\
  UnwrapLoops2.trace
    (UnwrapLoops2.unwrap_loops_2 20 ul2_junk
       (mkMachine [(0x1014, 0x80000000)] []) 0x80000001 0x1000 0x4E 0x5F)
    = [Call_sub_1800D3BF0 6 0x4D 0x3B 8 0x1000] /\
  ~ (sint32 (load_DWORD (mkMachine [(0x1014, 0x80000000)] [])
               (sint64 (0x1000 + 0x14))) < 0 ->
     UnwrapLoops2.trace
       (UnwrapLoops2.unwrap_loops_2 20 ul2_junk
          (mkMachine [(0x1014, 0x80000000)] []) 0x80000001 0x1000 0x4E 0x5F)
     = []).
Proof.
split; [vm_compute; reflexivity |].
split; [vm_compute; reflexivity |].
split; [vm_compute; reflexivity |].
intros H.
assert (Hneg : sint32 (load_DWORD (mkMachine [(0x1014, 0x80000000)] [])
                         (sint64 (0x1000 + 0x14))) < 0)
  by (vm_compute; reflexivity).
specialize (H Hneg). vm_compute in H. discriminate H.
Qed.

(** The negative stored size -3 (stored as [0xFFFFFFFD]) with the requested
    size 10, which is below [2^31]: no call is made. *)
Lemma resize_called_iff_unsigned_less_witness :
  (20 <= 20)%nat /\
  sint32 (load_DWORD (mkMachine [(0x1014, 0xFFFFFFFD)] [])
            (sint64 (0x1000 + 0x14))) < 0 /\
  10 <= 2 ^ 31 /\
  UnwrapLoops2.trace
    (UnwrapLoops2.unwrap_loops_2 20 ul2_junk
       (mkMachine [(0x1014, 0xFFFFFFFD)] []) 10 0x1000 0x4E 0x5F) = [].
Proof.
split; [lia |].
split; [vm_compute; reflexivity |].
split; [vm_compute; discriminate |].
destruct (resize_called_iff_unsigned_less ul2_junk
            (mkMachine [(0x1014, 0xFFFFFFFD)] []) 10 0x1000 0x4E 0x5F)
  as [_ H].
destruct (H 20%nat (Nat.le_refl 20)) as (_ & _ & Hneg & _).
apply Hneg; [vm_compute; reflexivity | vm_compute; discriminate].
Defined.

(** ** The dispatch variable [i] *)

Section DispatchVariable.
Context {world : Type} {E : Externals world}.

Ltac split_step :=
  repeat match goal with
         | |- context [_InterlockedCompareExchange ?m ?d ?x ?c] =>
             destruct (_InterlockedCompareExchange m d x c)
         | |- context [if ?c then _ else _] => destruct c
         end.

(** What the statements of [unwrap_loops] do with [i]. *)
Lemma unwrap_loops_writes (p : UnwrapLoops.point) :
  writes_at UnwrapLoops.pc (fun s => UnwrapLoops.i (UnwrapLoops.vars s))
    UnwrapLoops.step p ->
  p = UnwrapLoops.L15_init \/ p = UnwrapLoops.LABEL_x2B0 \/
  p = UnwrapLoops.L15_inc.
Proof.
intros (s & Hp & Hne).
destruct p; auto; exfalso; apply Hne;
  destruct s as [q [i0 x2 r0] m tr rv]; cbn in Hp; subst q;
  unfold UnwrapLoops.step, UnwrapLoops.lock_cmpxchg;
  cbn [UnwrapLoops.pc UnwrapLoops.vars UnwrapLoops.mem UnwrapLoops.i];
  split_step; reflexivity.
Qed.

Lemma unwrap_loops_reads (p : UnwrapLoops.point) :
  reads_at UnwrapLoops.pc UnwrapLoops.set_i UnwrapLoops.step p ->
  UnwrapLoops.is_branch p = true \/ p = UnwrapLoops.L19.
Proof.
intros (s & x & Hp & Hne).
destruct p; auto; exfalso; apply Hne;
  destruct s as [q [i0 x2 r0] m tr rv]; cbn in Hp; subst q; reflexivity.
Qed.

Lemma unwrap_loops_copy_reads (w0 : world) :
  reads_at UnwrapLoops.pc UnwrapLoops.set_i UnwrapLoops.step UnwrapLoops.L19.
Proof.
exists (UnwrapLoops.mkState UnwrapLoops.L19 (UnwrapLoops.mkLocals 0 0 0)
          w0 [] None), 1.
split; [reflexivity | cbn; discriminate].
Qed.

(** The same for [unwrap_loops_2]. *)
Lemma unwrap_loops_2_writes (n8 a2 : Z) (p : UnwrapLoops2.point) :
  writes_at UnwrapLoops2.pc (fun s => UnwrapLoops2.i (UnwrapLoops2.vars s))
    (UnwrapLoops2.step n8 a2) p ->
  p = UnwrapLoops2.L51_init \/ p = UnwrapLoops2.L61 \/
  p = UnwrapLoops2.L63 \/ p = UnwrapLoops2.L51_inc.
Proof.
intros (s & Hp & Hne).
destruct p; auto; exfalso; apply Hne;
  destruct s as [q [i0 x9 x6 r0] m tr rv]; cbn in Hp; subst q;
  unfold UnwrapLoops2.step;
  cbn [UnwrapLoops2.pc UnwrapLoops2.vars UnwrapLoops2.mem UnwrapLoops2.i];
  split_step; reflexivity.
Qed.

Lemma unwrap_loops_2_reads (n8 a2 : Z) (p : UnwrapLoops2.point) :
  reads_at UnwrapLoops2.pc UnwrapLoops2.set_i (UnwrapLoops2.step n8 a2) p ->
  UnwrapLoops2.is_branch p = true \/ p = UnwrapLoops2.L55.
Proof.
intros (s & x & Hp & Hne).
destruct p; auto; exfalso; apply Hne;
  destruct s as [q [i0 x9 x6 r0] m tr rv]; cbn in Hp; subst q; reflexivity.
Qed.

Lemma unwrap_loops_2_copy_reads (n8 a2 : Z) (w0 : world) :
  reads_at UnwrapLoops2.pc UnwrapLoops2.set_i (UnwrapLoops2.step n8 a2)
    UnwrapLoops2.L55.
Proof.
exists (UnwrapLoops2.mkState UnwrapLoops2.L55 (UnwrapLoops2.mkLocals 0 0 0 0)
          w0 [] None), 1.
split; [reflexivity | cbn; discriminate].
Qed.

(** C5, amended: every write to [i], in both functions, stores one of the
    literals 0, 1, 2, and every read of [i] is inside the loop and is either
    a branch condition or the copy [result = i] at the head of the inner
    loop (line 19, resp. line 55), which does read [i] and whose value is
    what the function returns. *)
Theorem dispatch_variable_def_use (w0 : world) (n8 a2 : Z) :
  (forall p,
     writes_at UnwrapLoops.pc (fun s => UnwrapLoops.i (UnwrapLoops.vars s))
       UnwrapLoops.step p ->
     exists c, (c = 0 \/ c = 1 \/ c = 2) /\
       stores_literal UnwrapLoops.pc
         (fun s => UnwrapLoops.i (UnwrapLoops.vars s)) UnwrapLoops.step p c) /\
  (forall p,
     writes_at UnwrapLoops2.pc (fun s => UnwrapLoops2.i (UnwrapLoops2.vars s))
       (UnwrapLoops2.step n8 a2) p ->
     exists c, (c = 0 \/ c = 1 \/ c = 2) /\
       stores_literal UnwrapLoops2.pc
         (fun s => UnwrapLoops2.i (UnwrapLoops2.vars s))
         (UnwrapLoops2.step n8 a2) p c) /\
  (forall p,
     reads_at UnwrapLoops.pc UnwrapLoops.set_i UnwrapLoops.step p ->
     (UnwrapLoops.is_branch p = true \/ p = UnwrapLoops.L19) /\
     UnwrapLoops.in_region p = true) /\
  (forall p,
     reads_at UnwrapLoops2.pc UnwrapLoops2.set_i (UnwrapLoops2.step n8 a2) p ->
     (UnwrapLoops2.is_branch p = true \/ p = UnwrapLoops2.L55) /\
     UnwrapLoops2.in_region p = true) /\
  reads_at UnwrapLoops.pc UnwrapLoops.set_i UnwrapLoops.step UnwrapLoops.L19 /\
  reads_at UnwrapLoops2.pc UnwrapLoops2.set_i (UnwrapLoops2.step n8 a2)
    UnwrapLoops2.L55 /\
  (forall s, UnwrapLoops.pc s = UnwrapLoops.L19 ->
     UnwrapLoops.result (UnwrapLoops.vars (UnwrapLoops.step s)) =
     UnwrapLoops.i (UnwrapLoops.vars s)) /\
  (forall s, UnwrapLoops.pc s = UnwrapLoops.L41 ->
     UnwrapLoops.retval (UnwrapLoops.step s) =
     Some (UnwrapLoops.result (UnwrapLoops.vars s))) /\
  (forall s, UnwrapLoops2.pc s = UnwrapLoops2.L55 ->
     UnwrapLoops2.result (UnwrapLoops2.vars (UnwrapLoops2.step n8 a2 s)) =
     UnwrapLoops2.i (UnwrapLoops2.vars s)) /\
  (forall s, UnwrapLoops2.pc s = UnwrapLoops2.L79 ->
     UnwrapLoops2.retval (UnwrapLoops2.step n8 a2 s) =
     Some (UnwrapLoops2.result (UnwrapLoops2.vars s))).
Proof.
repeat match goal with |- _ /\ _ => split end.
- intros p Hw.
  destruct (unwrap_loops_writes p Hw) as [-> | [-> | ->]];
    [exists 0 | exists 1 | exists 2]; (split; [tauto |]);
    intros [q v m tr rv] Hq; cbn in Hq; subst q; reflexivity.
- intros p Hw.
  destruct (unwrap_loops_2_writes n8 a2 p Hw) as [-> | [-> | [-> | ->]]];
    [exists 0 | exists 1 | exists 2 | exists 1]; (split; [tauto |]);
    intros [q v m tr rv] Hq; cbn in Hq; subst q; reflexivity.
- intros p Hr. split; [exact (unwrap_loops_reads p Hr) |].
  destruct (unwrap_loops_reads p Hr) as [H | ->]; [| reflexivity].
  destruct p; try discriminate H; reflexivity.
- intros p Hr. split; [exact (unwrap_loops_2_reads n8 a2 p Hr) |].
  destruct (unwrap_loops_2_reads n8 a2 p Hr) as [H | ->]; [| reflexivity].
  destruct p; try discriminate H; reflexivity.
- exact (unwrap_loops_copy_reads w0).
- exact (unwrap_loops_2_copy_reads n8 a2 w0).
- intros [q v m tr rv] Hq; cbn in Hq; subst q; reflexivity.
- intros [q v m tr rv] Hq; cbn in Hq; subst q; reflexivity.
- intros [q v m tr rv] Hq; cbn in Hq; subst q; reflexivity.
- intros [q v m tr rv] Hq; cbn in Hq; subst q; reflexivity.
Qed.

End DispatchVariable.

(** C5 fails as stated: in both functions [result = i] reads [i] and is not
    a branch condition. *)
Lemma dispatch_variable_not_control_variable :
  ~ is_control_variable (St := UnwrapLoops.state (world := machine))
      UnwrapLoops.pc (fun s => UnwrapLoops.i (UnwrapLoops.vars s))
      UnwrapLoops.set_i UnwrapLoops.step
      UnwrapLoops.is_branch UnwrapLoops.in_region /\
  ~ is_control_variable (St := UnwrapLoops2.state (world := machine))
      UnwrapLoops2.pc (fun s => UnwrapLoops2.i (UnwrapLoops2.vars s))
      UnwrapLoops2.set_i (UnwrapLoops2.step 10 0x1000)
      UnwrapLoops2.is_branch UnwrapLoops2.in_region.
Proof.
split; intros [_ H].
- destruct (H UnwrapLoops.L19 (unwrap_loops_copy_reads (mkMachine [] [])))
    as [Hb _].
  discriminate Hb.
- destruct (H UnwrapLoops2.L55
              (unwrap_loops_2_copy_reads 10 0x1000 (mkMachine [] [])))
    as [Hb _].
  discriminate Hb.
Qed.

(** The copy of line 19 reads [i] inside the loop. *)
Lemma dispatch_variable_def_use_witness :
  reads_at (St := UnwrapLoops.state (world := machine))
    UnwrapLoops.pc UnwrapLoops.set_i UnwrapLoops.step UnwrapLoops.L19 /\
  UnwrapLoops.in_region UnwrapLoops.L19 = true.
Proof.
pose proof (dispatch_variable_def_use (mkMachine [] []) 10 0x1000)
  as (_ & _ & Hreads & _ & Hcopy & _).
split; [exact Hcopy | exact (proj2 (Hreads UnwrapLoops.L19 Hcopy))].
Defined.

(** ** [unwrap_loops_3] *)

Section UnwrapLoops3Facts.
Import UnwrapLoops3.
Context {world : Type} {E : Externals world}.
Variables (a2 a5 : Z).

Ltac advance3 :=
  match goal with
  | |- context [run ?f (S ?n) ?s] =>
      let s' := eval lazy -[sint32 sint64 Z.add Z.shiftl Z.eqb negb app
                            load_QWORD sub_180221640 HIDWORD_assign]
                in (f s) in
      rewrite (run_unfold f n s); change (f s) with s'
  | |- context [exec ?f (S ?n) ?s] =>
      let s' := eval lazy -[sint32 sint64 Z.add Z.shiftl Z.eqb negb app
                            load_QWORD sub_180221640 HIDWORD_assign]
                in (f s) in
      rewrite (exec_unfold f n s); change (f s) with s'
  end.

Ltac take_branch :=
  match goal with
  | H : ?c = _ |- context [if ?c then _ else _] => rewrite H
  end.

Ltac symbolic_run3 :=
  repeat (advance3; try (take_branch; cbv iota)); cbn [run exec].

(** One pass through the body that goes round again: seven steps. *)
Lemma iteration_continue (x5 x10 x7 x8 x9 : Z) (m : world)
  (tr : list event) (rv : option Z) :
  (sint32 (x10 + 1) =? x5) = false ->
  let s := mkState L97 (mkLocals x5 x10 x7 x8 x9) m tr rv in
  (exists y7 y8 m' e1 e2,
     run (step a2 a5) 7 s =
       mkState L97 (mkLocals x5 (sint32 (x10 + 1)) y7 y8 x10) m'
         (tr ++ [e1; e2]) rv /\
     is_call_sub_180221640 e1 = true /\ is_call_sub_180221640 e2 = true) /\
  index_at L97 (exec (step a2 a5) 7 s) = [x10] /\
  index_at L98 (exec (step a2 a5) 7 s) = [x10] /\
  index_at L106 (exec (step a2 a5) 7 s) = [x10].
Proof.
intros Hc s. subst s. split; [| split; [| split]].
- symbolic_run3. rewrite <- app_assoc. cbn [app].
  do 5 eexists. split; [reflexivity | split; reflexivity].
- unfold index_at, visits. symbolic_run3. reflexivity.
- unfold index_at, visits. symbolic_run3. reflexivity.
- unfold index_at, visits. symbolic_run3. reflexivity.
Qed.

(** The pass that leaves the loop: six steps to line 119. *)
Lemma iteration_break (x5 x10 x7 x8 x9 : Z) (m : world)
  (tr : list event) (rv : option Z) :
  (sint32 (x10 + 1) =? x5) = true ->
  let s := mkState L97 (mkLocals x5 x10 x7 x8 x9) m tr rv in
  (exists y7 y8 m' e1 e2,
     run (step a2 a5) 6 s =
       mkState L119 (mkLocals x5 (sint32 (x10 + 1)) y7 y8 x10) m'
         (tr ++ [e1; e2]) rv /\
     is_call_sub_180221640 e1 = true /\ is_call_sub_180221640 e2 = true) /\
  index_at L97 (exec (step a2 a5) 6 s) = [x10] /\
  index_at L98 (exec (step a2 a5) 6 s) = [x10] /\
  index_at L106 (exec (step a2 a5) 6 s) = [x10].
Proof.
intros Hc s. subst s. split; [| split; [| split]].
- symbolic_run3. rewrite <- app_assoc. cbn [app].
  do 5 eexists. split; [reflexivity | split; reflexivity].
- unfold index_at, visits. symbolic_run3. reflexivity.
- unfold index_at, visits. symbolic_run3. reflexivity.
- unfold index_at, visits. symbolic_run3. reflexivity.
Qed.

Lemma index_at_app (p : point) (l1 l2 : list (state (world := world))) :
  index_at p (l1 ++ l2) = index_at p l1 ++ index_at p l2.
Proof. unfold index_at, visits. now rewrite filter_app, map_app. Qed.

Lemma indices_shift (k : Z) (n : nat) :
  map (fun j => sint32 (k + Z.of_nat j)) (seq 0 (S n)) =
  sint32 k :: map (fun j => sint32 (k + 1 + Z.of_nat j)) (seq 0 n).
Proof.
cbn [seq map]. rewrite Z.add_0_r. f_equal.
rewrite <- seq_shift, map_map. apply map_ext. intros j. f_equal. lia.
Qed.

(** The loop, entered with [v10 = k] and [n + 1] passes to go. *)
Lemma loop_runs (n : nat) :
  forall (k x7 x8 x9 : Z) (m : world) (tr : list event) (rv : option Z),
  0 <= k -> k + Z.of_nat n + 1 = a2 -> a2 < 2 ^ 32 ->
  let s := mkState L97 (mkLocals (sint32 a2) (sint32 k) x7 x8 x9) m tr rv in
  let idx := map (fun j => sint32 (k + Z.of_nat j)) (seq 0 (S n)) in
  (exists y7 y8 y9 m' evs,
     run (step a2 a5) (7 * n + 6) s =
       mkState L119 (mkLocals (sint32 a2) (sint32 a2) y7 y8 y9) m'
         (tr ++ evs) rv /\
     length evs = (2 * S n)%nat /\
     forallb is_call_sub_180221640 evs = true) /\
  index_at L97 (exec (step a2 a5) (7 * n + 6) s) = idx /\
  index_at L98 (exec (step a2 a5) (7 * n + 6) s) = idx /\
  index_at L106 (exec (step a2 a5) (7 * n + 6) s) = idx.
Proof.
induction n as [|n IH]; intros k x7 x8 x9 m tr rv Hk Ha Hlt; cbv zeta.
- assert (Hc : (sint32 (sint32 k + 1) =? sint32 a2) = true).
  { rewrite sint32_add_l. apply Z.eqb_eq. f_equal. lia. }
  destruct (iteration_break (sint32 a2) (sint32 k) x7 x8 x9 m tr rv Hc)
    as ((y7 & y8 & m' & e1 & e2 & Hrun & H1 & H2) & I97 & I98 & I106).
  change (7 * 0 + 6)%nat with 6%nat. cbn [seq map]. rewrite Z.add_0_r.
  split; [| auto].
  exists y7, y8, (sint32 k), m', [e1; e2].
  rewrite Hrun, sint32_add_l. replace (k + 1) with a2 by lia.
  cbn [forallb length]. rewrite H1, H2. auto.
- assert (Hc : (sint32 (sint32 k + 1) =? sint32 a2) = false).
  { rewrite sint32_add_l. apply Z.eqb_neq. rewrite sint32_eq_iff.
    rewrite !uint32_small by lia. lia. }
  destruct (iteration_continue (sint32 a2) (sint32 k) x7 x8 x9 m tr rv Hc)
    as ((y7 & y8 & m' & e1 & e2 & Hrun & H1 & H2) & I97 & I98 & I106).
  replace (7 * S n + 6)%nat with (7 + (7 * n + 6))%nat by lia.
  rewrite run_add, exec_app, !index_at_app, I97, I98, I106, Hrun.
  rewrite sint32_add_l, indices_shift.
  destruct (IH (k + 1) y7 y8 (sint32 k) m' (tr ++ [e1; e2]) rv
              ltac:(lia) ltac:(lia) Hlt)
    as ((z7 & z8 & z9 & m'' & evs & Hrun' & Hlen & Hall) & J97 & J98 & J106).
  rewrite J97, J98, J106.
  split; [| auto].
  exists z7, z8, z9, m'', (e1 :: e2 :: evs).
  rewrite Hrun', <- app_assoc. cbn [app length forallb].
  rewrite H1, H2, Hall, Hlen. repeat split; auto. lia.
Qed.

Lemma step_Returned3 (s : state) : pc s = Returned -> step a2 a5 s = s.
Proof. intros H. unfold step. now rewrite H. Qed.

(** With [a2 = 0] the block is skipped. *)
Lemma unwrap_loops_3_skip (junk : locals) (w : world) :
  a2 = 0 ->
  run (step a2 a5) 3 (entry junk w) =
    mkState Returned
      (mkLocals (sint32 a2) (v10 junk) (v7 junk) (v8 junk) (v9 junk))
      w [] (Some 4).
Proof.
intros Ha. unfold entry.
assert (Hc : negb (a2 =? 0) = false) by (subst a2; reflexivity).
symbolic_run3. reflexivity.
Qed.

(** With [0 < a2 < 2^32] the body runs [a2] times and the function returns
    after [7 * a2 + 4] steps. *)
Lemma unwrap_loops_3_loop (junk : locals) (w : world) :
  0 < a2 < 2 ^ 32 ->
  let N := (7 * Z.to_nat a2 + 4)%nat in
  let idx := map (fun j => sint32 (Z.of_nat j)) (seq 0 (Z.to_nat a2)) in
  (exists vs m' evs,
     run (step a2 a5) N (entry junk w) = mkState Returned vs m' evs (Some 4) /\
     length evs = (2 * Z.to_nat a2)%nat /\
     forallb is_call_sub_180221640 evs = true) /\
  index_at L97 (exec (step a2 a5) N (entry junk w)) = idx /\
  index_at L98 (exec (step a2 a5) N (entry junk w)) = idx /\
  index_at L106 (exec (step a2 a5) N (entry junk w)) = idx.
Proof.
intros Ha. cbv zeta.
assert (Hc : negb (a2 =? 0) = true).
{ apply negb_true_iff, Z.eqb_neq. lia. }
destruct (Z.to_nat a2) as [|n] eqn:Hn; [lia |].
replace (7 * S n + 4)%nat with (4 + ((7 * n + 6) + 1))%nat by lia.
assert (H4 : run (step a2 a5) 4 (entry junk w) =
             mkState L97
               (mkLocals (sint32 a2) (sint32 0)
                  (HIDWORD_assign (v7 junk) 2) (v8 junk) (v9 junk))
               w [] None).
{ unfold entry. symbolic_run3. reflexivity. }
destruct (loop_runs n 0 (HIDWORD_assign (v7 junk) 2) (v8 junk) (v9 junk)
            w [] None ltac:(lia) ltac:(lia) ltac:(lia))
  as ((y7 & y8 & y9 & m' & evs & Hrun & Hlen & Hall) & J97 & J98 & J106).
assert (I4 : forall p, In p [L97; L98; L106] ->
             index_at p (exec (step a2 a5) 4 (entry junk w)) = []).
{ intros p Hp. unfold index_at, visits.
  assert (Hf : filter (fun s => point_eqb (pc s) p)
                 (exec (step a2 a5) 4 (entry junk w)) = []).
  { unfold entry. symbolic_run3.
    destruct Hp as [<- | [<- | [<- | []]]]; reflexivity. }
  now rewrite Hf. }
rewrite (run_add _ 4), (run_add _ (7 * n + 6) 1).
rewrite (exec_app _ 4), (exec_app _ (7 * n + 6) 1).
rewrite !index_at_app, H4, Hrun.
rewrite !I4 by (cbn; tauto).
rewrite J97, J98, J106. cbn [app exec run index_at visits filter map pc].
cbn [point_eqb step pc]. cbn [map app].
rewrite !app_nil_r.
assert (Hidx : map (fun j => sint32 (0 + Z.of_nat j)) (seq 0 (S n)) =
               map (fun j => sint32 (Z.of_nat j)) (seq 0 (S n))).
{ apply map_ext. intros j. f_equal. }
rewrite Hidx.
split; [| auto].
eexists _, m', evs. split; [reflexivity | split; [lia | assumption]].
Qed.

End UnwrapLoops3Facts.

Section ProtectedRegionFacts.
Import UnwrapLoops3.
Context {world : Type} {E : Externals world}.
Variables (a2 a5 : Z).

Lemma in_protected_phase (p : point) :
  in_protected p = Nat.eqb (phase p) 1.
Proof. destruct p; reflexivity. Qed.

Lemma boundary_ok_step (s : state) :
  boundary_ok (pc s) (pc (step a2 a5 s)).
Proof.
destruct s as [p v m tr rv]. unfold boundary_ok, step. cbn [pc].
destruct p;
  repeat match goal with
         | |- context [if ?c then _ else _] => destruct c
         end;
  cbn; repeat split; intros; try lia; try discriminate; auto.
Qed.

Lemma boundary_ok_path (fuel : nat) (s : state) :
  chain boundary_ok (map pc (exec (step a2 a5) fuel s)).
Proof. apply chain_exec, boundary_ok_step. Qed.

Lemma no_entry_once_in (ps : list point) (p : point) :
  chain boundary_ok (p :: ps) -> (1 <= phase p)%nat ->
  entries in_protected (p :: ps) = [].
Proof.
revert p. induction ps as [|q ps IH]; intros p Hc Hp; [reflexivity |].
change (boundary_ok p q /\ chain boundary_ok (q :: ps)) in Hc.
destruct Hc as [(Hpq & _ & _) Hc].
change (entries in_protected (p :: q :: ps))
  with (if negb (in_protected p) && in_protected q
        then (p, q) :: entries in_protected (q :: ps)
        else entries in_protected (q :: ps)).
rewrite (IH q Hc) by lia.
rewrite !in_protected_phase.
destruct (Nat.eqb_spec (phase p) 1), (Nat.eqb_spec (phase q) 1);
  cbn [negb andb]; auto.
assert (phase p <= 2)%nat by (destruct p; cbn; lia). lia.
Qed.

Lemma no_exit_once_out (ps : list point) (p : point) :
  chain boundary_ok (p :: ps) -> (2 <= phase p)%nat ->
  exits in_protected (p :: ps) = [].
Proof.
revert p. induction ps as [|q ps IH]; intros p Hc Hp; [reflexivity |].
change (boundary_ok p q /\ chain boundary_ok (q :: ps)) in Hc.
destruct Hc as [(Hpq & _ & _) Hc].
change (exits in_protected (p :: q :: ps))
  with (if in_protected p && negb (in_protected q)
        then (p, q) :: exits in_protected (q :: ps)
        else exits in_protected (q :: ps)).
rewrite (IH q Hc) by lia.
rewrite !in_protected_phase.
destruct (Nat.eqb_spec (phase p) 1), (Nat.eqb_spec (phase q) 1);
  cbn [negb andb]; auto. lia.
Qed.

Lemma at_most_one_entry (ps : list point) :
  chain boundary_ok ps -> (length (entries in_protected ps) <= 1)%nat.
Proof.
induction ps as [|p ps IH]; intros Hc; [cbn; lia |].
destruct ps as [|q ps]; [cbn; lia |].
change (boundary_ok p q /\ chain boundary_ok (q :: ps)) in Hc.
destruct Hc as [(Hpq & _ & _) Hc].
change (entries in_protected (p :: q :: ps))
  with (if negb (in_protected p) && in_protected q
        then (p, q) :: entries in_protected (q :: ps)
        else entries in_protected (q :: ps)).
destruct (negb (in_protected p) && in_protected q) eqn:Hen; [| auto].
apply andb_prop in Hen. destruct Hen as [_ Hq].
rewrite in_protected_phase in Hq. apply Nat.eqb_eq in Hq.
rewrite (no_entry_once_in ps q Hc) by lia. cbn. lia.
Qed.

Lemma at_most_one_exit (ps : list point) :
  chain boundary_ok ps -> (length (exits in_protected ps) <= 1)%nat.
Proof.
induction ps as [|p ps IH]; intros Hc; [cbn; lia |].
destruct ps as [|q ps]; [cbn; lia |].
change (boundary_ok p q /\ chain boundary_ok (q :: ps)) in Hc.
destruct Hc as [(Hpq & _ & Hout) Hc].
change (exits in_protected (p :: q :: ps))
  with (if in_protected p && negb (in_protected q)
        then (p, q) :: exits in_protected (q :: ps)
        else exits in_protected (q :: ps)).
destruct (in_protected p && negb (in_protected q)) eqn:Hex; [| auto].
apply andb_prop in Hex. destruct Hex as [Hp Hq].
apply negb_true_iff in Hq.
destruct (Hout Hp Hq) as [_ ->].
rewrite (no_exit_once_out ps L119 Hc) by (cbn; lia). cbn. lia.
Qed.

End ProtectedRegionFacts.

Section UnwrapLoops3Run.
Import UnwrapLoops3.
Context {world : Type} {E : Externals world}.
Variables (junk : locals) (w : world) (a2 a5 : Z).

(** Steps to the return: [7 * a2 + 4]. *)
Local Notation "'steps'" := ((7 * Z.to_nat a2 + 4)%nat) (only parsing).

Lemma unwrap_loops_3_returns :
  0 <= a2 < 2 ^ 32 ->
  pc (run (step a2 a5) steps (entry junk w)) = Returned /\
  retval (run (step a2 a5) steps (entry junk w)) = Some 4.
Proof.
intros Ha. destruct (Z.eq_dec a2 0) as [H0 | H0].
- replace (7 * Z.to_nat a2 + 4)%nat with (3 + 1)%nat by (subst a2; reflexivity).
  rewrite run_add, (unwrap_loops_3_skip a2 a5 junk w H0). auto.
- destruct (unwrap_loops_3_loop a2 a5 junk w ltac:(lia))
    as ((vs & m' & evs & Hrun & _) & _).
  rewrite Hrun. auto.
Qed.

Lemma unwrap_loops_3_settled (fuel : nat) :
  0 <= a2 < 2 ^ 32 -> (steps <= fuel)%nat ->
  run (step a2 a5) fuel (entry junk w) = run (step a2 a5) steps (entry junk w) /\
  forall p, p <> Returned ->
    index_at p (exec (step a2 a5) fuel (entry junk w)) =
    index_at p (exec (step a2 a5) steps (entry junk w)).
Proof.
intros Ha Hfuel.
destruct (unwrap_loops_3_returns Ha) as [Hpc _].
pose proof (step_Returned3 a2 a5 _ Hpc) as Hfix.
split; [now apply run_settled |].
intros p Hp.
rewrite (exec_settled _ steps fuel _ Hfix Hfuel), index_at_app.
unfold index_at at 2, visits.
rewrite filter_repeat_false; [now rewrite app_nil_r |].
rewrite Hpc. destruct p; try reflexivity. contradiction.
Qed.

(** Nothing is called when [a2 = 0]. *)
Lemma unwrap_loops_3_skip_trace (fuel : nat) :
  a2 = 0 -> trace (run (step a2 a5) fuel (entry junk w)) = [].
Proof.
intros Ha.
apply (run_invariant (step a2 a5)
         (fun s => trace s = [] /\ in_protected (pc s) = false)).
- intros [p v m tr rv] [Htr Hp]. cbn [trace pc] in *. subst a2 tr.
  destruct p; try discriminate Hp; cbn; auto.
- cbn. auto.
Qed.

(** The return value is set when, and only when, the function has returned,
    and it is 4. *)
Lemma unwrap_loops_3_retval (fuel : nat) :
  retval (run (step a2 a5) fuel (entry junk w)) =
  if halted (run (step a2 a5) fuel (entry junk w)) then Some 4 else None.
Proof.
apply (run_invariant (step a2 a5)
         (fun s => retval s = if halted s then Some 4 else None)).
- intros [p v m tr rv] H. unfold halted in *. cbn [pc retval] in H.
  destruct p; cbn [halted_at] in H; subst rv; unfold step; cbn [pc vars];
    try destruct (a2 =? 0); try destruct (sint32 (v9 v + 1) =? v5 v);
    reflexivity.
- reflexivity.
Qed.

End UnwrapLoops3Run.

Section UnwrapLoops3Claims.
Import UnwrapLoops3.
Context {world : Type} {E : Externals world}.

Lemma singleton_of_member {A : Type} (l : list A) (x : A) :
  (length l <= 1)%nat -> In x l -> l = [x].
Proof.
destruct l as [|y [|z l]]; cbn; intros Hlen Hin; try lia; try contradiction.
destruct Hin as [-> | []]. reflexivity.
Qed.

(** C7: along every run the guarded block is entered at most once and left
    at most once; it is entered only from the guard of line 92 (to line 94)
    and left only from the [break] of line 114 (to line 119); once the
    function has returned, it was left as many times as it was entered, and
    for [a2 <> 0] that is exactly once each. *)
Theorem protected_region_single_entry_exit
  (junk : locals) (w : world) (n0x5C a2 n0x53 n9 a5 : Z) :
  0 <= a2 < 2 ^ 32 ->
  (forall fuel,
     let path := map pc (exec (step a2 a5) fuel (entry junk w)) in
     (length (entries in_protected path) <= 1)%nat /\
     (length (exits in_protected path) <= 1)%nat /\
     (forall p q, In (p, q) (entries in_protected path) ->
        p = L92 /\ q = L94) /\
     (forall p q, In (p, q) (exits in_protected path) ->
        p = L114 /\ q = L119)) /\
  (forall fuel, (7 * Z.to_nat a2 + 4 <= fuel)%nat ->
     let path := map pc (exec (step a2 a5) (S fuel) (entry junk w)) in
     halted (unwrap_loops_3 fuel junk w n0x5C a2 n0x53 n9 a5) = true /\
     length (exits in_protected path) = length (entries in_protected path) /\
     (a2 <> 0 ->
      entries in_protected path = [(L92, L94)] /\
      exits in_protected path = [(L114, L119)])).
Proof.
intros Ha.
assert (Hfirst : forall fuel,
  let path := map pc (exec (step a2 a5) fuel (entry junk w)) in
  (length (entries in_protected path) <= 1)%nat /\
  (length (exits in_protected path) <= 1)%nat /\
  (forall p q, In (p, q) (entries in_protected path) -> p = L92 /\ q = L94) /\
  (forall p q, In (p, q) (exits in_protected path) -> p = L114 /\ q = L119)).
{ intros fuel path.
  pose proof (boundary_ok_path a2 a5 fuel (entry junk w)) as Hc.
  fold path in Hc.
  split; [now apply at_most_one_entry |].
  split; [now apply at_most_one_exit |].
  split; intros p q Hin.
  - destruct (entries_chain in_protected boundary_ok path Hc p q Hin)
      as ((_ & Hen & _) & Hp & Hq). auto.
  - destruct (exits_chain in_protected boundary_ok path Hc p q Hin)
      as ((_ & _ & Hex) & Hp & Hq). auto. }
split; [exact Hfirst |].
intros fuel Hfuel path.
destruct (unwrap_loops_3_returns junk w a2 a5 Ha) as [Hpc _].
destruct (unwrap_loops_3_settled junk w a2 a5 fuel Ha Hfuel) as [Hrun _].
assert (Hhalt : pc (run (step a2 a5) fuel (entry junk w)) = Returned)
  by now rewrite Hrun.
pose proof (crossings_balance_exec (step a2 a5) pc in_protected fuel
              (entry junk w)) as Hbal.
fold path in Hbal. rewrite Hhalt in Hbal.
change (Nat.b2n (in_protected (pc (entry junk w)))) with 0%nat in Hbal.
change (Nat.b2n (in_protected Returned)) with 0%nat in Hbal.
rewrite !Nat.add_0_r in Hbal.
split; [unfold unwrap_loops_3, halted; now rewrite Hhalt |].
split; [lia |].
intros Hnz.
destruct (Hfirst (S fuel)) as (Hle & Hlx & _ & Hex). fold path in Hle, Hlx, Hex.
assert (Hin : In (L92, L94) (entries in_protected path)).
{ unfold path. replace (S fuel) with (3 + (fuel - 2))%nat by lia.
  rewrite exec_app, map_app. apply entries_prefix.
  assert (Hc : negb (a2 =? 0) = true)
    by (apply negb_true_iff, Z.eqb_neq; exact Hnz).
  unfold entry. cbn [exec map pc step goto set_v5].
  rewrite Hc. cbn. auto. }
pose proof (singleton_of_member _ _ Hle Hin) as Hent.
split; [exact Hent |].
rewrite Hent in Hbal. cbn [length] in Hbal.
destruct (exits in_protected path) as [|[p q] [|? ?]] eqn:Hx;
  cbn [length] in Hbal, Hlx; try lia.
destruct (Hex p q (or_introl eq_refl)) as [-> ->]. reflexivity.
Qed.

(** C9: for [0 < a2 <= 2^31 - 1] the function returns after [7 * a2 + 4]
    steps, having gone through the loop body exactly [a2] times with
    [v10 = 0, 1, ..., a2 - 1] in this order, and having called
    [sub_180221640] once at line 98 and once at line 106 in each pass,
    [2 * a2] calls in all and no other call; for [a2 = 0] the body is never
    reached and nothing is called. *)
Theorem loop_runs_a2_times
  (junk : locals) (w : world) (n0x5C a2 n0x53 n9 a5 : Z) :
  (0 < a2 <= 2 ^ 31 - 1 ->
   forall fuel, (7 * Z.to_nat a2 + 4 <= fuel)%nat ->
     let s := unwrap_loops_3 fuel junk w n0x5C a2 n0x53 n9 a5 in
     let ex := exec (step a2 a5) fuel (entry junk w) in
     let idx := map Z.of_nat (seq 0 (Z.to_nat a2)) in
     halted s = true /\
     index_at L97 ex = idx /\
     index_at L98 ex = idx /\
     index_at L106 ex = idx /\
     length (trace s) = (2 * Z.to_nat a2)%nat /\
     forallb is_call_sub_180221640 (trace s) = true) /\
  (a2 = 0 ->
   forall fuel,
     trace (unwrap_loops_3 fuel junk w n0x5C a2 n0x53 n9 a5) = [] /\
     index_at L97 (exec (step a2 a5) fuel (entry junk w)) = []).
Proof.
split.
- intros Ha fuel Hfuel. cbv zeta.
  assert (Ha' : 0 <= a2 < 2 ^ 32) by lia.
  destruct (unwrap_loops_3_settled junk w a2 a5 fuel Ha' Hfuel) as [Hrun Hidx].
  destruct (unwrap_loops_3_loop a2 a5 junk w ltac:(lia))
    as ((vs & m' & evs & HN & Hlen & Hall) & I97 & I98 & I106).
  assert (Hsame : map (fun j => sint32 (Z.of_nat j)) (seq 0 (Z.to_nat a2)) =
                  map Z.of_nat (seq 0 (Z.to_nat a2))).
  { apply map_ext_in. intros j Hj. apply in_seq in Hj.
    apply sint32_small. lia. }
  unfold unwrap_loops_3.
  rewrite Hrun, HN, !Hidx by discriminate.
  rewrite I97, I98, I106, Hsame. cbn [trace halted pc halted_at].
  repeat split; auto.
- intros Ha fuel. split.
  + apply unwrap_loops_3_skip_trace. exact Ha.
  + unfold index_at, visits.
    assert (Hout : Forall (fun s => in_protected (pc s) = false)
                     (exec (step a2 a5) fuel (entry junk w))).
    { apply exec_invariant; [| reflexivity].
      intros [p v m tr rv] Hp. cbn [pc] in *. subst a2.
      destruct p; try discriminate Hp; reflexivity. }
    induction Hout as [|s l Hs _ IH]; [reflexivity |].
    cbn [filter]. destruct (pc s); try discriminate Hs; exact IH.
Qed.

End UnwrapLoops3Claims.

(** [a2 = 3]: one entry, one exit. *)
Lemma protected_region_single_entry_exit_witness :
  0 <= 3 < 2 ^ 32 /\
  entries UnwrapLoops3.in_protected
    (map UnwrapLoops3.pc
       (exec (UnwrapLoops3.step 3 0x1000) 26
          (UnwrapLoops3.entry ul3_junk (mkMachine [] [])))) =
    [(UnwrapLoops3.L92, UnwrapLoops3.L94)] /\
  exits UnwrapLoops3.in_protected
    (map UnwrapLoops3.pc
       (exec (UnwrapLoops3.step 3 0x1000) 26
          (UnwrapLoops3.entry ul3_junk (mkMachine [] [])))) =
    [(UnwrapLoops3.L114, UnwrapLoops3.L119)].
Proof.
split; [lia |].
destruct (protected_region_single_entry_exit ul3_junk (mkMachine [] [])
            0x5C 3 0x53 9 0x1000 ltac:(lia)) as [_ H].
apply (H 25%nat); [vm_compute; lia | discriminate].
Defined.

(** [a2 = 3]: indices 0, 1, 2 and six calls. *)
Lemma loop_runs_a2_times_witness :
  0 < 3 <= 2 ^ 31 - 1 /\ (7 * Z.to_nat 3 + 4 <= 25)%nat /\
  UnwrapLoops3.index_at UnwrapLoops3.L98
    (exec (UnwrapLoops3.step 3 0x1000) 25
       (UnwrapLoops3.entry ul3_junk (mkMachine [] []))) = [0; 1; 2] /\
  length
    (UnwrapLoops3.trace
       (UnwrapLoops3.unwrap_loops_3 25 ul3_junk (mkMachine [] [])
          0x5C 3 0x53 9 0x1000)) = 6%nat.
Proof.
split; [lia | split; [vm_compute; lia |]].
destruct (loop_runs_a2_times ul3_junk (mkMachine [] []) 0x5C 3 0x53 9 0x1000)
  as [H _].
destruct (H ltac:(lia) 25%nat ltac:(vm_compute; lia))
  as (_ & _ & H98 & _ & Hlen & _).
split; [exact H98 | exact Hlen].
Defined.

(** ** Return values *)

Section ReturnValues.
Context {world : Type} {E : Externals world}.

Lemma unwrap_loops_returns_2 (fuel : nat) (junk : UnwrapLoops.locals)
  (w : world) :
  UnwrapLoops.halted (UnwrapLoops.unwrap_loops fuel junk w) = true ->
  UnwrapLoops.retval (UnwrapLoops.unwrap_loops fuel junk w) = Some 2.
Proof.
intros Hh. destruct (spin_inv_run fuel junk w) as (_ & _ & Hpc).
unfold UnwrapLoops.halted in Hh.
destruct (UnwrapLoops.pc (UnwrapLoops.unwrap_loops fuel junk w));
  try discriminate Hh.
exact (proj2 Hpc).
Qed.

Lemma unwrap_loops_2_returns_1 (fuel : nat) (junk : UnwrapLoops2.locals)
  (w : world) (n8 a2 n0x4E n0x5F : Z) :
  UnwrapLoops2.halted
    (UnwrapLoops2.unwrap_loops_2 fuel junk w n8 a2 n0x4E n0x5F) = true ->
  UnwrapLoops2.retval
    (UnwrapLoops2.unwrap_loops_2 fuel junk w n8 a2 n0x4E n0x5F) = Some 1.
Proof.
unfold UnwrapLoops2.unwrap_loops_2, UnwrapLoops2.halted. intros Hh.
assert (Hpc : UnwrapLoops2.pc
                (run (UnwrapLoops2.step n8 a2) fuel
                   (UnwrapLoops2.entry junk w)) = UnwrapLoops2.Returned).
{ destruct (UnwrapLoops2.pc _); try discriminate Hh; reflexivity. }
pose proof (step_Returned n8 a2 _ Hpc) as Hfix.
rewrite <- (run_settled _ fuel (Nat.max fuel 20) _ Hfix) by lia.
rewrite (proj1 (unwrap_loops_2_settled junk w n8 a2 (Nat.max fuel 20)
                  ltac:(lia))).
destruct (uint32 (sint32 (load_DWORD w (sint64 (a2 + 0x14)))) >=? n8) eqn:Hc.
- now rewrite (proj1 (unwrap_loops_2_enough junk w n8 a2 Hc)).
- now rewrite (proj1 (unwrap_loops_2_grow junk w n8 a2 Hc)).
Qed.

Lemma unwrap_loops_3_returns_4 (fuel : nat) (junk : UnwrapLoops3.locals)
  (w : world) (n0x5C a2 n0x53 n9 a5 : Z) :
  UnwrapLoops3.halted
    (UnwrapLoops3.unwrap_loops_3 fuel junk w n0x5C a2 n0x53 n9 a5) = true ->
  UnwrapLoops3.retval
    (UnwrapLoops3.unwrap_loops_3 fuel junk w n0x5C a2 n0x53 n9 a5) = Some 4.
Proof.
unfold UnwrapLoops3.unwrap_loops_3. intros Hh.
now rewrite unwrap_loops_3_retval, Hh.
Qed.

(** C8: whenever they return, [unwrap_loops] returns 2, [unwrap_loops_2]
    returns 1 and [unwrap_loops_3] returns 4, whatever the arguments, the
    contents of the locals on entry, the world, and what the external calls
    answer, so any two runs of one function that return, return the same
    value.  [unwrap_loops_2] always returns (within 20 steps),
    [unwrap_loops_3] always returns (within [7 * a2 + 4] steps), and
    [unwrap_loops] returns seven steps after a compare-and-exchange that
    finds the lock word 0. *)
Theorem return_value_is_constant :
  (forall fuel1 junk1 (w1 : world) fuel2 junk2 (w2 : world),
     let s1 := UnwrapLoops.unwrap_loops fuel1 junk1 w1 in
     let s2 := UnwrapLoops.unwrap_loops fuel2 junk2 w2 in
     UnwrapLoops.halted s1 = true -> UnwrapLoops.halted s2 = true ->
     UnwrapLoops.retval s1 = Some 2 /\
     UnwrapLoops.retval s2 = UnwrapLoops.retval s1) /\
  (forall fuel1 junk1 (w1 : world) n8 a2 n0x4E n0x5F
          fuel2 junk2 (w2 : world) n8' a2' n0x4E' n0x5F',
     let s1 := UnwrapLoops2.unwrap_loops_2 fuel1 junk1 w1 n8 a2 n0x4E n0x5F in
     let s2 :=
       UnwrapLoops2.unwrap_loops_2 fuel2 junk2 w2 n8' a2' n0x4E' n0x5F' in
     UnwrapLoops2.halted s1 = true -> UnwrapLoops2.halted s2 = true ->
     UnwrapLoops2.retval s1 = Some 1 /\
     UnwrapLoops2.retval s2 = UnwrapLoops2.retval s1) /\
  (forall fuel1 junk1 (w1 : world) n0x5C a2 n0x53 n9 a5
          fuel2 junk2 (w2 : world) n0x5C' a2' n0x53' n9' a5',
     let s1 :=
       UnwrapLoops3.unwrap_loops_3 fuel1 junk1 w1 n0x5C a2 n0x53 n9 a5 in
     let s2 :=
       UnwrapLoops3.unwrap_loops_3 fuel2 junk2 w2 n0x5C' a2' n0x53' n9' a5' in
     UnwrapLoops3.halted s1 = true -> UnwrapLoops3.halted s2 = true ->
     UnwrapLoops3.retval s1 = Some 4 /\
     UnwrapLoops3.retval s2 = UnwrapLoops3.retval s1) /\
  (forall fuel junk (w : world) n8 a2 n0x4E n0x5F,
     (20 <= fuel)%nat ->
     UnwrapLoops2.halted
       (UnwrapLoops2.unwrap_loops_2 fuel junk w n8 a2 n0x4E n0x5F) = true) /\
  (forall fuel junk (w : world) n0x5C a2 n0x53 n9 a5,
     0 <= a2 < 2 ^ 32 -> (7 * Z.to_nat a2 + 4 <= fuel)%nat ->
     UnwrapLoops3.halted
       (UnwrapLoops3.unwrap_loops_3 fuel junk w n0x5C a2 n0x53 n9 a5) = true) /\
  (forall s : UnwrapLoops.state,
     UnwrapLoops.pc s = UnwrapLoops.L24 \/ UnwrapLoops.pc s = UnwrapLoops.L35 ->
     fst (_InterlockedCompareExchange (UnwrapLoops.mem s) g_mutex_SpinCount 1 0)
       = 0 ->
     UnwrapLoops.halted (run UnwrapLoops.step 7 s) = true /\
     UnwrapLoops.retval (run UnwrapLoops.step 7 s) = Some 2).
Proof.
repeat match goal with |- _ /\ _ => split end.
- intros fuel1 junk1 w1 fuel2 junk2 w2 s1 s2 H1 H2. subst s1 s2.
  rewrite !unwrap_loops_returns_2 by assumption. auto.
- intros fuel1 junk1 w1 n8 a2 x y fuel2 junk2 w2 n8' a2' x' y' s1 s2 H1 H2.
  subst s1 s2. rewrite !unwrap_loops_2_returns_1 by assumption. auto.
- intros fuel1 junk1 w1 a b c d e fuel2 junk2 w2 a' b' c' d' e' s1 s2 H1 H2.
  subst s1 s2. rewrite !unwrap_loops_3_returns_4 by assumption. auto.
- intros fuel junk w n8 a2 x y Hfuel.
  unfold UnwrapLoops2.unwrap_loops_2, UnwrapLoops2.halted.
  rewrite (proj1 (unwrap_loops_2_settled junk w n8 a2 fuel Hfuel)).
  now rewrite unwrap_loops_2_returns.
- intros fuel junk w a a2 c d a5 Ha Hfuel.
  unfold UnwrapLoops3.unwrap_loops_3, UnwrapLoops3.halted.
  rewrite (proj1 (unwrap_loops_3_settled junk w a2 a5 fuel Ha Hfuel)).
  now rewrite (proj1 (unwrap_loops_3_returns junk w a2 a5 Ha)).
- intros s Hpc Hr.
  destruct (acquire_exit s Hpc Hr) as (Hp & Hv & _).
  unfold UnwrapLoops.halted. rewrite Hp. auto.
Qed.

End ReturnValues.

(** Two runs of [unwrap_loops], one contended and one not: both return 2. *)
Lemma return_value_is_constant_witness :
  UnwrapLoops.halted
    (UnwrapLoops.unwrap_loops 250 ul_junk (mkMachine [] (repeat 1 34 ++ [0])))
    = true /\
  UnwrapLoops.halted
    (UnwrapLoops.unwrap_loops 11 (UnwrapLoops.mkLocals 0 1 2) (mkMachine [] []))
    = true /\
  UnwrapLoops.retval
    (UnwrapLoops.unwrap_loops 250 ul_junk (mkMachine [] (repeat 1 34 ++ [0])))
    = Some 2 /\
  UnwrapLoops.retval
    (UnwrapLoops.unwrap_loops 11 (UnwrapLoops.mkLocals 0 1 2) (mkMachine [] []))
    = UnwrapLoops.retval
        (UnwrapLoops.unwrap_loops 250 ul_junk
           (mkMachine [] (repeat 1 34 ++ [0]))).
Proof.
split; [vm_compute; reflexivity | split; [vm_compute; reflexivity |]].
destruct (@return_value_is_constant machine machine_externals) as [H _].
apply (H 250%nat ul_junk (mkMachine [] (repeat 1 34 ++ [0]))
         11%nat (UnwrapLoops.mkLocals 0 1 2) (mkMachine [] []));
  vm_compute; reflexivity.
Defined.

(** ** [unwrap_loops] and the spin loop it encodes *)

Section SpinLoop.
Import UnwrapLoops.
Context {world : Type} {E : Externals world}.

Ltac go :=
  match goal with
  | |- context [run ?f (S ?n) ?s] =>
      let s' := eval lazy -[sint32 Z.add Z.geb app] in (f s) in
      rewrite (run_unfold f n s); change (f s) with s'
  end.

(** The first four statements overwrite every local. *)
Lemma entry_to_first_exchange (junk : locals) (w : world) :
  run step 4 (entry junk w) = mkState L24 (mkLocals 0 0 0) w [] None.
Proof. unfold entry. repeat go. reflexivity. Qed.

Lemma retry_cycle_state (s : state) :
  pc s = L24 \/ pc s = L35 ->
  fst (_InterlockedCompareExchange (mem s) g_mutex_SpinCount 1 0) <> 0 ->
  let r := fst (_InterlockedCompareExchange (mem s) g_mutex_SpinCount 1 0) in
  let w1 := snd (_InterlockedCompareExchange (mem s) g_mutex_SpinCount 1 0) in
  let a := c_bool (v2 (vars s) >=? 0x20) in
  run step 6 s =
    mkState L35 (mkLocals 1 (sint32 (v2 (vars s) + 1)) 1)
      (unk_1802CCC58 w1 a)
      (trace s ++
         [Call_InterlockedCompareExchange g_mutex_SpinCount 1 0 r;
          Call_unk_1802CCC58 a])
      (retval s).
Proof.
cbv zeta. intros Hpc Hr. apply Z.eqb_neq in Hr.
rewrite run_unfold, (step_cmpxchg s Hpc).
destruct s as [p [i0 x2 r0] m tr rv]. cbn [pc mem vars v2 trace retval] in *.
destruct (_InterlockedCompareExchange m g_mutex_SpinCount 1 0) as [r m'].
cbn [fst snd] in *. rewrite Hr.
unfold goto, called. cbn [pc mem vars v2 trace retval].
repeat go. cbn [run]. rewrite <- app_assoc. reflexivity.
Qed.

Lemma acquire_exit_state (s : state) :
  pc s = L24 \/ pc s = L35 ->
  fst (_InterlockedCompareExchange (mem s) g_mutex_SpinCount 1 0) = 0 ->
  run step 7 s =
    mkState Returned (mkLocals 2 (v2 (vars s)) 2)
      (snd (_InterlockedCompareExchange (mem s) g_mutex_SpinCount 1 0))
      (trace s ++ [Call_InterlockedCompareExchange g_mutex_SpinCount 1 0 0])
      (Some 2).
Proof.
intros Hpc Hr.
rewrite run_unfold, (step_cmpxchg s Hpc).
destruct s as [p [i0 x2 r0] m tr rv]. cbn [pc mem vars v2 trace retval] in *.
destruct (_InterlockedCompareExchange m g_mutex_SpinCount 1 0) as [r m'].
cbn [fst snd] in *. rewrite Hr.
unfold goto, called. cbn [pc mem vars v2 trace retval Z.eqb].
repeat go. reflexivity.
Qed.

Lemma step_halted (s : state) : halted s = true -> step s = s.
Proof.
unfold halted, step. destruct (pc s); try discriminate. reflexivity.
Qed.

Lemma halted_stays (n m : nat) (s : state) :
  halted (run step n s) = true -> (n <= m)%nat ->
  run step m s = run step n s.
Proof. intros Hh Hle. apply run_settled; auto. now apply step_halted. Qed.

(** If the spin loop comes out, so does the function, with the same world
    and the same calls, [6 * k + 7] steps after the first exchange for some
    number [k <= n] of failed tries. *)
Lemma spin_wait_returns (n : nat) :
  forall (s : state) (w' : world) (tr' : list event),
  pc s = L24 \/ pc s = L35 ->
  spin_wait n (v2 (vars s)) (mem s) (trace s) = Some (w', tr') ->
  exists k, (k <= n)%nat /\
    pc (run step (6 * k + 7) s) = Returned /\
    retval (run step (6 * k + 7) s) = Some 2 /\
    mem (run step (6 * k + 7) s) = w' /\
    trace (run step (6 * k + 7) s) = tr'.
Proof.
induction n as [|n IH]; intros s w' tr' Hpc Hsw; cbn [spin_wait] in Hsw;
  pose proof (acquire_exit_state s Hpc) as Hex;
  pose proof (retry_cycle_state s Hpc) as Hre; cbv zeta in Hre;
  destruct (_InterlockedCompareExchange (mem s) g_mutex_SpinCount 1 0)
    as [r w1] eqn:Hcas; cbn [fst snd] in *;
  destruct (r =? 0) eqn:Hr.
- apply Z.eqb_eq in Hr. subst r. injection Hsw as <- <-.
  exists 0%nat. change (6 * 0 + 7)%nat with 7%nat.
  rewrite (Hex eq_refl). cbn. auto.
- discriminate Hsw.
- apply Z.eqb_eq in Hr. subst r. injection Hsw as <- <-.
  exists 0%nat. change (6 * 0 + 7)%nat with 7%nat.
  rewrite (Hex eq_refl). cbn. split; [lia | auto].
- apply Z.eqb_neq in Hr. specialize (Hre Hr).
  destruct (IH (run step 6 s) w' tr') as (k & Hk & H).
  + rewrite Hre. cbn. auto.
  + rewrite Hre. cbn [vars v2 mem trace].
    rewrite <- app_assoc in Hsw. exact Hsw.
  + exists (S k). split; [lia |].
    replace (6 * S k + 7)%nat with (6 + (6 * k + 7))%nat by lia.
    rewrite run_add. exact H.
Qed.

(** If it does not within [n] failed tries, the function is still spinning
    after [6 * (n + 1)] steps. *)
Lemma spin_wait_spinning (n : nat) :
  forall s : state,
  pc s = L24 \/ pc s = L35 ->
  spin_wait n (v2 (vars s)) (mem s) (trace s) = None ->
  pc (run step (6 * S n) s) = L35.
Proof.
induction n as [|n IH]; intros s Hpc Hsw; cbn [spin_wait] in Hsw;
  pose proof (retry_cycle_state s Hpc) as Hre; cbv zeta in Hre;
  destruct (_InterlockedCompareExchange (mem s) g_mutex_SpinCount 1 0)
    as [r w1] eqn:Hcas; cbn [fst snd] in *;
  destruct (r =? 0) eqn:Hr; try discriminate Hsw;
  apply Z.eqb_neq in Hr; specialize (Hre Hr).
- change (6 * 1)%nat with 6%nat. now rewrite Hre.
- replace (6 * S (S n))%nat with (6 + 6 * S n)%nat by lia.
  rewrite run_add. apply IH.
  + rewrite Hre. cbn. auto.
  + rewrite Hre. cbn [vars v2 mem trace].
    rewrite <- app_assoc in Hsw. exact Hsw.
Qed.

End SpinLoop.

Section SpinLoopProperties.
Import UnwrapLoops.
Context {world : Type} {E : Externals world}.

Lemma spin_wait_shape (n : nat) :
  forall (v : Z) (w : world) (tr : list event) (w' : world)
         (tr' : list event),
  spin_wait n v w tr = Some (w', tr') ->
  exists evs,
    tr' = tr ++ evs ++
            [Call_InterlockedCompareExchange g_mutex_SpinCount 1 0 0] /\
    Forall nonzero (cmpxchg_results evs) /\
    length (backoff_args evs) = length (cmpxchg_results evs).
Proof.
induction n as [|n IH]; intros v w tr w' tr' Hsw; cbn [spin_wait] in Hsw;
  destruct (_InterlockedCompareExchange w g_mutex_SpinCount 1 0) as [r w1];
  destruct (r =? 0) eqn:Hr; try discriminate Hsw;
  try (apply Z.eqb_eq in Hr; subst r; injection Hsw as <- <-;
       exists []; cbn; auto).
apply Z.eqb_neq in Hr.
destruct (IH _ _ _ _ _ Hsw) as (evs & -> & Hnz & Hlen).
exists (Call_InterlockedCompareExchange g_mutex_SpinCount 1 0 r ::
        Call_unk_1802CCC58 (c_bool (v >=? 32)) :: evs).
split; [now rewrite <- !app_assoc |].
cbn [cmpxchg_results backoff_args length]. split; [| now rewrite Hlen].
constructor; auto.
Qed.

(** Once the function has returned, the loop run with as many tries as the
    function had steps comes out with the function's world and calls. *)
Lemma returned_spin_wait (junk : locals) (w : world) (fuel : nat) :
  halted (unwrap_loops fuel junk w) = true ->
  spin_wait fuel 0 w [] =
    Some (mem (unwrap_loops fuel junk w), trace (unwrap_loops fuel junk w)).
Proof.
intros Hh.
destruct (spin_wait fuel 0 w []) as [[w' tr] |] eqn:Hsw.
- destruct (spin_wait_returns fuel (mkState L24 (mkLocals 0 0 0) w [] None)
              w' tr (or_introl eq_refl) Hsw)
    as (k & _ & Hpc & _ & Hm & Htr).
  assert (Hh0 : halted (run step (4 + (6 * k + 7)) (entry junk w)) = true).
  { unfold halted. now rewrite run_add, entry_to_first_exchange, Hpc. }
  unfold unwrap_loops in *.
  rewrite <- (halted_stays fuel (Nat.max fuel (4 + (6 * k + 7))) _ Hh) by lia.
  rewrite (halted_stays _ (Nat.max fuel (4 + (6 * k + 7))) _ Hh0) by lia.
  now rewrite run_add, entry_to_first_exchange, Hm, Htr.
- exfalso.
  pose proof (spin_wait_spinning fuel
                (mkState L24 (mkLocals 0 0 0) w [] None)
                (or_introl eq_refl) Hsw) as Hpc.
  rewrite <- entry_to_first_exchange with (junk := junk) in Hpc.
  rewrite <- run_add in Hpc.
  unfold unwrap_loops in Hh.
  rewrite <- (halted_stays fuel (4 + 6 * S fuel) _ Hh) in Hh by lia.
  unfold halted in Hh. rewrite Hpc in Hh. discriminate Hh.
Qed.

(** X1: [unwrap_loops] is the spin loop [spin_wait]: when the loop comes
    out, the function returns 2 with the same world and the same calls,
    whatever the locals held on entry; and when the function has returned,
    the loop comes out with the world and the calls of the function. *)
Theorem unwrap_loops_is_spin_wait (junk : locals) (w : world) :
  (forall n w' tr,
     spin_wait n 0 w [] = Some (w', tr) ->
     exists fuel, forall fuel', (fuel <= fuel')%nat ->
       halted (unwrap_loops fuel' junk w) = true /\
       retval (unwrap_loops fuel' junk w) = Some 2 /\
       mem (unwrap_loops fuel' junk w) = w' /\
       trace (unwrap_loops fuel' junk w) = tr) /\
  (forall fuel,
     halted (unwrap_loops fuel junk w) = true ->
     spin_wait fuel 0 w [] =
       Some (mem (unwrap_loops fuel junk w),
             trace (unwrap_loops fuel junk w))).
Proof.
assert (Hfwd : forall n w' tr,
  spin_wait n 0 w [] = Some (w', tr) ->
  exists fuel,
    halted (unwrap_loops fuel junk w) = true /\
    retval (unwrap_loops fuel junk w) = Some 2 /\
    mem (unwrap_loops fuel junk w) = w' /\
    trace (unwrap_loops fuel junk w) = tr).
{ intros n w' tr Hsw.
  destruct (spin_wait_returns n (mkState L24 (mkLocals 0 0 0) w [] None) w' tr)
    as (k & _ & Hpc & Hrv & Hm & Htr); [now left | exact Hsw |].
  exists (4 + (6 * k + 7))%nat. unfold unwrap_loops, halted.
  rewrite run_add, entry_to_first_exchange, Hpc. auto. }
split.
- intros n w' tr Hsw.
  destruct (Hfwd n w' tr Hsw) as (fuel & Hh & Hrv & Hm & Htr).
  exists fuel. intros fuel' Hle. unfold unwrap_loops in *.
  rewrite (halted_stays fuel fuel' _ Hh Hle). auto.
- intros fuel Hh. now apply returned_spin_wait.
Qed.

(** X2: the function has not returned for as long as its exchanges find
    the lock word non-zero: if every exchange the run reaches within
    [fuel] steps finds a non-zero value, then after [fuel] steps the
    function has neither returned nor set a return value. *)
Theorem unwrap_loops_spins_while_contended
  (junk : locals) (w : world) (fuel : nat) :
  (forall k, (k < fuel)%nat ->
     let s := unwrap_loops k junk w in
     pc s = L24 \/ pc s = L35 ->
     fst (_InterlockedCompareExchange (mem s) g_mutex_SpinCount 1 0) <> 0) ->
  halted (unwrap_loops fuel junk w) = false /\
  retval (unwrap_loops fuel junk w) = None.
Proof.
intros Hbusy.
set (P := fun s : state (world := world) =>
          retval s = None /\
          match pc s with
          | LABEL_x379 | L15_inc | L41 | Returned => False
          | L19 | L20 => i (vars s) = 0 \/ i (vars s) = 1
          | L31 => i (vars s) = 1
          | _ => True
          end).
assert (Hstep : forall s : state (world := world),
          P s ->
          (pc s = L24 \/ pc s = L35 ->
           fst (_InterlockedCompareExchange (mem s) g_mutex_SpinCount 1 0)
           <> 0) ->
          P (step s)).
{ unfold P. intros s [Hrv Hs] Hb.
  destruct (pc s) eqn:Hpc; try contradiction.
  all: try (rewrite step_cmpxchg by auto;
            assert (Hb' := Hb ltac:(auto));
            destruct (_InterlockedCompareExchange (mem s)
                        g_mutex_SpinCount 1 0) as [r w1];
            cbn [fst] in Hb'; apply Z.eqb_neq in Hb'; rewrite Hb';
            cbn; auto).
  all: destruct s as [p [i0 x2 r0] m tr rv];
    cbn [pc vars i retval] in *; subst p rv; unfold step; cbn [pc vars i].
  all: try (cbn; auto; fail).
  + destruct Hs as [-> | ->]; cbn; auto.
  + subst i0. cbn. auto. }
assert (H : forall n, (n <= fuel)%nat -> P (unwrap_loops n junk w)).
{ induction n as [|n IH]; intros Hn.
  - unfold P, unwrap_loops. cbn. auto.
  - unfold unwrap_loops. rewrite run_S_out.
    apply Hstep.
    + apply IH. lia.
    + apply (Hbusy n). lia. }
destruct (H fuel (Nat.le_refl fuel)) as [Hrv Hpc]. split; [| exact Hrv].
unfold halted. destruct (pc (unwrap_loops fuel junk w)); auto; contradiction.
Qed.

(** X3: when the function returns, its last call is an exchange that found
    the lock word 0; every exchange before it found it non-zero, and each
    of those was followed by one backoff call. *)
Theorem unwrap_loops_returns_holding_lock
  (junk : locals) (w : world) (fuel : nat) :
  halted (unwrap_loops fuel junk w) = true ->
  exists evs,
    trace (unwrap_loops fuel junk w) =
      evs ++ [Call_InterlockedCompareExchange g_mutex_SpinCount 1 0 0] /\
    Forall nonzero (cmpxchg_results evs) /\
    length (backoff_args evs) = length (cmpxchg_results evs).
Proof.
intros Hh.
pose proof (returned_spin_wait junk w fuel Hh) as Hsw.
destruct (spin_wait_shape _ _ _ _ _ _ Hsw) as (evs & Htr & Hnz & Hlen).
exists evs. auto.
Qed.

End SpinLoopProperties.

Section UninitialisedLocals.
Context {world : Type} {E : Externals world}.

(** X4: [unwrap_loops] never reads a local before writing it: two runs
    that differ only in what the locals held on entry are at the same
    statement with the same world, calls and return value after any number
    of steps, and in the same state altogether from the fourth step on. *)
Theorem unwrap_loops_ignores_entry_locals
  (junk1 junk2 : UnwrapLoops.locals) (w : world) (fuel : nat) :
  let s1 := UnwrapLoops.unwrap_loops fuel junk1 w in
  let s2 := UnwrapLoops.unwrap_loops fuel junk2 w in
  UnwrapLoops.pc s1 = UnwrapLoops.pc s2 /\
  UnwrapLoops.mem s1 = UnwrapLoops.mem s2 /\
  UnwrapLoops.trace s1 = UnwrapLoops.trace s2 /\
  UnwrapLoops.retval s1 = UnwrapLoops.retval s2 /\
  ((4 <= fuel)%nat -> s1 = s2).
Proof.
cbv zeta. unfold UnwrapLoops.unwrap_loops.
destruct (Nat.le_gt_cases 4 fuel) as [Hge | Hlt].
- replace fuel with (4 + (fuel - 4))%nat by lia.
  rewrite !run_add, !entry_to_first_exchange. auto.
- destruct fuel as [|[|[|[|fuel]]]]; try lia;
    (repeat split; try reflexivity; intros; lia).
Qed.

End UninitialisedLocals.

(** Three failed exchanges, then a successful one. *)
Lemma unwrap_loops_is_spin_wait_witness :
  UnwrapLoops.halted
    (UnwrapLoops.unwrap_loops 40 ul_junk (mkMachine [] [1; 1; 1; 0])) = true /\
  spin_wait 40 0 (mkMachine [] [1; 1; 1; 0]) [] =
    Some (UnwrapLoops.mem
            (UnwrapLoops.unwrap_loops 40 ul_junk (mkMachine [] [1; 1; 1; 0])),
          UnwrapLoops.trace
            (UnwrapLoops.unwrap_loops 40 ul_junk (mkMachine [] [1; 1; 1; 0]))).
Proof.
split; [vm_compute; reflexivity |].
apply (unwrap_loops_is_spin_wait ul_junk (mkMachine [] [1; 1; 1; 0])).
vm_compute; reflexivity.
Defined.

(** The lock word holds 1 and nobody releases it: every exchange of the
    first 40 steps finds 1, and the function has not returned by then. *)
Lemma unwrap_loops_spins_while_contended_witness :
  (forall k, (k < 40)%nat ->
     let s := UnwrapLoops.unwrap_loops k ul_junk
                (mkMachine [(0x1802F0028, 1)] []) in
     UnwrapLoops.pc s = UnwrapLoops.L24 \/ UnwrapLoops.pc s = UnwrapLoops.L35 ->
     fst (_InterlockedCompareExchange (UnwrapLoops.mem s)
            g_mutex_SpinCount 1 0) <> 0) /\
  UnwrapLoops.halted
    (UnwrapLoops.unwrap_loops 40 ul_junk (mkMachine [(0x1802F0028, 1)] []))
    = false /\
  UnwrapLoops.retval
    (UnwrapLoops.unwrap_loops 40 ul_junk (mkMachine [(0x1802F0028, 1)] []))
    = None.
Proof.
assert (H : forall k, (k < 40)%nat ->
          let s := UnwrapLoops.unwrap_loops k ul_junk
                     (mkMachine [(0x1802F0028, 1)] []) in
          UnwrapLoops.pc s = UnwrapLoops.L24 \/
          UnwrapLoops.pc s = UnwrapLoops.L35 ->
          fst (_InterlockedCompareExchange (UnwrapLoops.mem s)
                 g_mutex_SpinCount 1 0) <> 0).
{ intros k Hk.
  do 40 (destruct k as [|k]; [intros s _; vm_compute; discriminate |]).
  exfalso. lia. }
split; [exact H |].
exact (unwrap_loops_spins_while_contended ul_junk
         (mkMachine [(0x1802F0028, 1)] []) 40 H).
Defined.

(** An uncontended run: the only call is the successful exchange. *)
Lemma unwrap_loops_returns_holding_lock_witness :
  UnwrapLoops.halted
    (UnwrapLoops.unwrap_loops 11 ul_junk (mkMachine [] [])) = true /\
  exists evs,
    UnwrapLoops.trace (UnwrapLoops.unwrap_loops 11 ul_junk (mkMachine [] [])) =
      evs ++ [Call_InterlockedCompareExchange g_mutex_SpinCount 1 0 0] /\
    Forall UnwrapLoops.nonzero (UnwrapLoops.cmpxchg_results evs) /\
    length (UnwrapLoops.backoff_args evs) =
      length (UnwrapLoops.cmpxchg_results evs).
Proof.
split; [vm_compute; reflexivity |].
apply (unwrap_loops_returns_holding_lock ul_junk (mkMachine [] []) 11).
vm_compute; reflexivity.
Defined.

(** Different leftovers in the locals, same state after four steps. *)
Lemma unwrap_loops_ignores_entry_locals_witness :
  (4 <= 4)%nat /\
  UnwrapLoops.unwrap_loops 4 ul_junk (mkMachine [] []) =
  UnwrapLoops.unwrap_loops 4 (UnwrapLoops.mkLocals 1 2 3) (mkMachine [] []).
Proof.
split; [lia |].
apply (unwrap_loops_ignores_entry_locals ul_junk (UnwrapLoops.mkLocals 1 2 3)
         (mkMachine [] []) 4). lia.
Defined.

(** ** [unwrap_loops_2]: the size it asks for *)

Section GrownSize.
Import UnwrapLoops2.
Context {world : Type} {E : Externals world}.

Lemma shiftr_1_half (x : Z) : Z.shiftr x 1 = x / 2.
Proof. rewrite Z.shiftr_div_pow2 by lia. reflexivity. Qed.

(** Without overflow the size is the largest of one and a half times the
    old size, the request and 8. *)
Lemma clamps_in_range (n8 old : Z) :
  0 <= old -> old + old / 2 < 2 ^ 31 -> 0 <= n8 < 2 ^ 31 ->
  clamps_implemented n8 (growth old) =
    Z.max (Z.max (old + old / 2) n8) 8.
Proof.
intros Ho Hg Hn.
assert (H2 : 0 <= old / 2) by (apply Z.div_pos; lia).
unfold clamps_implemented, clamp_floor, clamp_requested, growth.
rewrite shiftr_1_half, (sint32_small (old + old / 2)) by lia.
rewrite (uint32_small (old + old / 2)) by lia.
rewrite (sint32_small n8) by lia.
destruct (old + old / 2 <=? n8) eqn:H1;
  [destruct (n8 <? 9) eqn:H3 | destruct (old + old / 2 <? 9) eqn:H3]; lia.
Qed.

(** With overflow, in the request or in the growth, it is 8. *)
Lemma clamps_overflow (n8 old : Z) :
  - 2 ^ 31 <= old < 2 ^ 31 -> 0 <= n8 < 2 ^ 32 -> uint32 old < n8 ->
  2 ^ 31 <= n8 \/ 2 ^ 31 <= old + old / 2 ->
  clamps_implemented n8 (growth old) = 8.
Proof.
intros Ho Hn Hlt Hov.
unfold clamps_implemented, clamp_floor, clamp_requested.
pose proof (sint32_range (old + Z.shiftr old 1)) as Hg.
fold (growth old) in Hg.
destruct (sint32_cases n8 Hn) as [[Hn0 En] | [Hn0 En]].
- (* the request fits: the growth has wrapped to a negative number *)
  destruct Hov as [Hov | Hov]; [lia |].
  assert (Hneg : growth old < 0).
  { unfold growth. rewrite shiftr_1_half.
    pose proof (Z.div_mod old 2 ltac:(lia)) as Hdm.
    pose proof (Z.mod_pos_bound old 2 ltac:(lia)) as Hmb.
    assert (old + old / 2 < 2 ^ 32) by lia.
    unfold sint32.
    replace (old + old / 2 + 2 ^ 31)
      with (old + old / 2 - 2 ^ 31 + 1 * 2 ^ 32) by lia.
    rewrite Z_mod_plus_full, Z.mod_small; lia. }
  rewrite (uint32_neg (growth old)) by lia.
  destruct (growth old + 2 ^ 32 <=? n8) eqn:H1; [lia |].
  destruct (growth old <? 9) eqn:H2; lia.
- rewrite En.
  destruct (uint32 (growth old) <=? n8) eqn:H1.
  + destruct (n8 - 2 ^ 32 <? 9) eqn:H2; lia.
  + destruct (uint32_cases (growth old) Hg) as [[Hg0 Eg] | [Hg0 Eg]];
      rewrite Eg in H1; [lia |].
    destruct (growth old <? 9) eqn:H2; lia.
Qed.

End GrownSize.

Section GrownSizeProperties.
Import UnwrapLoops2.
Context {world : Type} {E : Externals world}.

(** What the function leaves behind once it has returned. *)
Lemma unwrap_loops_2_outcome
  (junk : locals) (w : world) (n8 a2 n0x4E n0x5F : Z) (fuel : nat) :
  (20 <= fuel)%nat ->
  let old := sint32 (load_DWORD w (sint64 (a2 + 0x14))) in
  let sz := clamps_implemented n8 (growth old) in
  let s := unwrap_loops_2 fuel junk w n8 a2 n0x4E n0x5F in
  retval s = Some 1 /\
  (uint32 old < n8 ->
   trace s = [Call_sub_1800D3BF0 6 0x4D 0x3B sz a2] /\
   mem s = sub_1800D3BF0 w 6 0x4D 0x3B sz a2) /\
  (n8 <= uint32 old -> trace s = [] /\ mem s = w).
Proof.
intros Hfuel. cbv zeta. unfold unwrap_loops_2.
rewrite (proj1 (unwrap_loops_2_settled junk w n8 a2 fuel Hfuel)).
destruct (uint32 (sint32 (load_DWORD w (sint64 (a2 + 0x14)))) >=? n8) eqn:Hc.
- rewrite (proj1 (unwrap_loops_2_enough junk w n8 a2 Hc)).
  rewrite Z.geb_leb in Hc. apply Z.leb_le in Hc.
  cbn. repeat split; auto; lia.
- rewrite (proj1 (unwrap_loops_2_grow junk w n8 a2 Hc)).
  apply geb_false_lt in Hc.
  cbn. repeat split; auto; lia.
Qed.

(** X5: the size handed to [sub_1800D3BF0] is never below 8, and it is a
    non-negative [int]. *)
Theorem resize_size_at_least_8
  (junk : locals) (w : world) (n8 a2 n0x4E n0x5F : Z) (fuel : nat) :
  Forall (fun sz => 8 <= sz < 2 ^ 31)
    (resize_sizes (trace (unwrap_loops_2 fuel junk w n8 a2 n0x4E n0x5F))).
Proof.
set (P := fun s : state (world := world) =>
  Forall (fun sz => 8 <= sz < 2 ^ 31) (resize_sizes (trace s)) /\
  match pc s with
  | L70 | L73 => - 2 ^ 31 <= v6 (vars s) < 2 ^ 31
  | L76 => 8 <= v6 (vars s) < 2 ^ 31
  | _ => True
  end).
assert (H : P (unwrap_loops_2 fuel junk w n8 a2 n0x4E n0x5F)).
{ unfold unwrap_loops_2. apply (run_invariant (step n8 a2) P); unfold P.
  - intros [p [i0 x9 x6 r0] m tr rv] [Htr Hp]. unfold step.
    cbn [pc vars trace v6 v9 i result mem] in *.
    destruct p;
      repeat match goal with
             | |- context [if ?c then _ else _] => destruct c eqn:?
             end;
      cbn [pc vars trace v6 v9 i result mem goto set_i set_v9 set_v6
           set_result set_retval called];
      try rewrite resize_sizes_app; cbn [resize_sizes];
      split; auto; try apply sint32_range; try lia.
    apply Forall_app. split; auto.
  - cbn. auto. }
exact (proj1 H).
Qed.

(** X6: when nothing overflows (stored size, request and one and a half
    times the stored size all below [2^31]) and the stored size is below
    the request, the size passed is the largest of one and a half times the
    stored size (rounded down), the request and 8; so it covers the
    request. *)
Theorem resize_size_is_max
  (junk : locals) (w : world) (n8 a2 n0x4E n0x5F : Z) (fuel : nat) :
  (20 <= fuel)%nat ->
  let old := sint32 (load_DWORD w (sint64 (a2 + 0x14))) in
  0 <= old < n8 -> n8 < 2 ^ 31 -> old + old / 2 < 2 ^ 31 ->
  resize_sizes (trace (unwrap_loops_2 fuel junk w n8 a2 n0x4E n0x5F)) =
    [Z.max (Z.max (old + old / 2) n8) 8] /\
  n8 <= Z.max (Z.max (old + old / 2) n8) 8.
Proof.
intros Hfuel old Ho Hn Hg.
destruct (unwrap_loops_2_outcome junk w n8 a2 n0x4E n0x5F fuel Hfuel)
  as (_ & Hgrow & _).
fold old in Hgrow.
destruct Hgrow as [Htr _]; [rewrite uint32_small; lia |].
rewrite Htr. cbn [resize_sizes].
rewrite clamps_in_range by lia. split; [reflexivity | lia].
Qed.

(** X7: when the request is [2^31] or more, or one and a half times the
    stored size is, the size passed is 8, whatever was requested. *)
Theorem resize_size_overflow
  (junk : locals) (w : world) (n8 a2 n0x4E n0x5F : Z) (fuel : nat) :
  (20 <= fuel)%nat ->
  let old := sint32 (load_DWORD w (sint64 (a2 + 0x14))) in
  0 <= n8 < 2 ^ 32 -> uint32 old < n8 ->
  2 ^ 31 <= n8 \/ 2 ^ 31 <= old + old / 2 ->
  resize_sizes (trace (unwrap_loops_2 fuel junk w n8 a2 n0x4E n0x5F)) = [8].
Proof.
intros Hfuel old Hn Hlt Hov.
destruct (unwrap_loops_2_outcome junk w n8 a2 n0x4E n0x5F fuel Hfuel)
  as (_ & Hgrow & _).
fold old in Hgrow. destruct (Hgrow Hlt) as [Htr _].
rewrite Htr. cbn [resize_sizes].
now rewrite (clamps_overflow n8 old (sint32_range _) Hn Hlt Hov).
Qed.

(** X8: if the callee records the size it was given at [a2 + 0x14], a
    second call with the same request finds the stored size sufficient: it
    calls nothing and leaves the world as the first call left it (sizes and
    request below [2^31], no overflow in the growth). *)
Theorem second_call_does_not_grow
  (junk1 junk2 : locals) (w : world) (n8 a2 n0x4E n0x5F : Z)
  (fuel1 fuel2 : nat) :
  (20 <= fuel1)%nat -> (20 <= fuel2)%nat ->
  let old := sint32 (load_DWORD w (sint64 (a2 + 0x14))) in
  let sz := clamps_implemented n8 (growth old) in
  0 <= n8 < 2 ^ 31 -> old + old / 2 < 2 ^ 31 ->
  load_DWORD (sub_1800D3BF0 w 6 0x4D 0x3B sz a2) (sint64 (a2 + 0x14)) = sz ->
  let s1 := unwrap_loops_2 fuel1 junk1 w n8 a2 n0x4E n0x5F in
  let s2 := unwrap_loops_2 fuel2 junk2 (mem s1) n8 a2 n0x4E n0x5F in
  trace s2 = [] /\ mem s2 = mem s1 /\ retval s2 = Some 1.
Proof.
intros Hf1 Hf2 old sz Hn Hg Hrec s1 s2.
destruct (unwrap_loops_2_outcome junk1 w n8 a2 n0x4E n0x5F fuel1 Hf1)
  as (_ & Hgrow & Hkeep).
fold old sz s1 in Hgrow, Hkeep.
destruct (unwrap_loops_2_outcome junk2 (mem s1) n8 a2 n0x4E n0x5F fuel2 Hf2)
  as (Hrv & _ & Hkeep2).
fold s2 in Hrv, Hkeep2.
assert (Hsuff : n8 <= uint32 (sint32 (load_DWORD (mem s1) (sint64 (a2 + 0x14))))).
{ destruct (Z_lt_le_dec (uint32 old) n8) as [Hlt | Hge].
  - destruct (Hgrow Hlt) as [_ Hm]. rewrite Hm, Hrec.
    assert (Ho : 0 <= old).
    { pose proof (sint32_range (load_DWORD w (sint64 (a2 + 0x14)))) as Hr.
      fold old in Hr.
      destruct (uint32_cases old Hr) as [[? _] | [? Eo]]; [assumption |].
      rewrite Eo in Hlt. lia. }
    unfold sz. rewrite clamps_in_range by lia.
    pose proof (Z.div_mod old 2 ltac:(lia)).
    pose proof (Z.mod_pos_bound old 2 ltac:(lia)).
    rewrite sint32_small, uint32_small by lia. lia.
  - destruct (Hkeep Hge) as [_ Hm]. rewrite Hm. exact Hge. }
destruct (Hkeep2 Hsuff) as [Htr Hm]. auto.
Qed.

End GrownSizeProperties.

Section UninitialisedLocals2.
Import UnwrapLoops2.
Context {world : Type} {E : Externals world}.
Variables (n8 a2 : Z).

Ltac go2 :=
  match goal with
  | |- context [run ?f (S ?n) ?s] =>
      let s' := eval lazy -[sint32 uint32 sint64 Z.add Z.shiftr Z.geb Z.leb
                            Z.ltb load_DWORD sub_1800D3BF0] in (f s) in
      rewrite (run_unfold f n s); change (f s) with s'
  end.

(** After four statements only [v6] still holds what it held on entry. *)
Lemma entry_to_first_test (junk : locals) (w : world) :
  run (step n8 a2) 4 (entry junk w) =
    mkState L60
      (mkLocals 0 (sint32 (load_DWORD w (sint64 (a2 + 0x14)))) (v6 junk) 0)
      w [] None.
Proof. unfold entry. repeat go2. reflexivity. Qed.

Lemma same_but_dead_v6_step (s s' : state) :
  same_but_dead_v6 s s' ->
  same_but_dead_v6 (step n8 a2 s) (step n8 a2 s').
Proof.
destruct s as [p [i0 x9 x6 r0] m tr rv], s' as [p' [i0' x9' x6' r0'] m' tr' rv'].
unfold same_but_dead_v6. cbn [pc vars mem trace retval i v9 v6 result].
intros (<- & <- & <- & <- & <- & <- & <- & Hv6).
unfold step. cbn [pc vars i v9 v6 result mem].
destruct p; cbn [v6_dead] in Hv6;
  try (destruct Hv6 as [<- | Hd]; [| discriminate Hd]);
  repeat match goal with
         | |- context [if ?c then _ else _] => destruct c
         end;
  cbn; repeat split; auto.
Qed.

Lemma same_but_dead_v6_run (n : nat) (s s' : state) :
  same_but_dead_v6 s s' ->
  same_but_dead_v6 (run (step n8 a2) n s) (run (step n8 a2) n s').
Proof.
revert s s'. induction n as [|n IH]; intros s s' H; [exact H |].
cbn [run]. apply IH, same_but_dead_v6_step, H.
Qed.

End UninitialisedLocals2.

Section UninitialisedLocals2Claim.
Context {world : Type} {E : Externals world}.

(** X9: [unwrap_loops_2] never reads a local before writing it: two runs
    that differ only in what the locals held on entry are at the same
    statement with the same world, calls and return value after any number
    of steps. *)
Theorem unwrap_loops_2_ignores_entry_locals
  (junk1 junk2 : UnwrapLoops2.locals) (w : world) (n8 a2 n0x4E n0x5F : Z)
  (fuel : nat) :
  let s1 := UnwrapLoops2.unwrap_loops_2 fuel junk1 w n8 a2 n0x4E n0x5F in
  let s2 := UnwrapLoops2.unwrap_loops_2 fuel junk2 w n8 a2 n0x4E n0x5F in
  UnwrapLoops2.pc s1 = UnwrapLoops2.pc s2 /\
  UnwrapLoops2.mem s1 = UnwrapLoops2.mem s2 /\
  UnwrapLoops2.trace s1 = UnwrapLoops2.trace s2 /\
  UnwrapLoops2.retval s1 = UnwrapLoops2.retval s2.
Proof.
cbv zeta. unfold UnwrapLoops2.unwrap_loops_2.
destruct (Nat.le_gt_cases 4 fuel) as [Hge | Hlt].
- replace fuel with (4 + (fuel - 4))%nat by lia.
  rewrite !run_add, !entry_to_first_test.
  match goal with
  | |- context [run ?f ?n ?a] =>
      match goal with
      | |- context [UnwrapLoops2.pc (run f n a) = UnwrapLoops2.pc (run f n ?b)] =>
          destruct (same_but_dead_v6_run n8 a2 n a b)
            as (H1 & H2 & H3 & H4 & _)
      end
  end.
  + unfold same_but_dead_v6. cbn. repeat split; auto.
  + auto.
- destruct fuel as [|[|[|[|fuel]]]]; try lia;
    (repeat split; reflexivity).
Qed.

End UninitialisedLocals2Claim.

(** Stored size 5, request 10: the size passed is 10. *)
Lemma resize_size_is_max_witness :
  (20 <= 20)%nat /\
  0 <= sint32 (load_DWORD (mkMachine [(0x1014, 5)] []) (sint64 (0x1000 + 0x14)))
    < 10 /\
  UnwrapLoops2.resize_sizes
    (UnwrapLoops2.trace
       (UnwrapLoops2.unwrap_loops_2 20 ul2_junk (mkMachine [(0x1014, 5)] [])
          10 0x1000 0x4E 0x5F)) = [10].
Proof.
split; [lia | split; [vm_compute; split; [discriminate | reflexivity] |]].
destruct (resize_size_is_max ul2_junk (mkMachine [(0x1014, 5)] [])
            10 0x1000 0x4E 0x5F 20) as [H _];
  [lia | vm_compute; split; [discriminate | reflexivity] | lia
  | vm_compute; reflexivity |].
exact H.
Defined.

(** Stored size 1500000000, request 2000000000: the growth wraps and the
    size passed is 8. *)
Lemma resize_size_overflow_witness :
  (20 <= 20)%nat /\ 0 <= 2000000000 < 2 ^ 32 /\
  UnwrapLoops2.resize_sizes
    (UnwrapLoops2.trace
       (UnwrapLoops2.unwrap_loops_2 20 ul2_junk
          (mkMachine [(0x1014, 1500000000)] [])
          2000000000 0x1000 0x4E 0x5F)) = [8].
Proof.
split; [lia | split; [lia |]].
apply (resize_size_overflow ul2_junk (mkMachine [(0x1014, 1500000000)] [])
         2000000000 0x1000 0x4E 0x5F 20);
  [lia | lia | vm_compute; reflexivity | right; vm_compute; discriminate].
Defined.

(** Stored size 5, request 10, in the world whose callee stores the size. *)
Lemma second_call_does_not_grow_witness :
  (20 <= 20)%nat /\ 0 <= 10 < 2 ^ 31 /\
  UnwrapLoops2.trace
    (UnwrapLoops2.unwrap_loops_2 20 ul2_junk
       (UnwrapLoops2.mem
          (UnwrapLoops2.unwrap_loops_2 20 ul2_junk
             (mkMachine [(0x1014, 5)] []) 10 0x1000 0x4E 0x5F))
       10 0x1000 0x4E 0x5F) = [].
Proof.
split; [lia | split; [lia |]].
apply (second_call_does_not_grow ul2_junk ul2_junk
         (mkMachine [(0x1014, 5)] []) 10 0x1000 0x4E 0x5F 20 20);
  [lia | lia | lia | vm_compute; reflexivity | vm_compute; reflexivity].
Defined.

(** ** [unwrap_loops_3] and the counted loop it encodes *)

Section CountedLoop.
Import UnwrapLoops3.
Context {world : Type} {E : Externals world}.
Variables (a2 a5 : Z).

Ltac go3 :=
  match goal with
  | |- context [run ?f (S ?n) ?s] =>
      let s' := eval lazy -[sint32 sint64 Z.add Z.shiftl Z.eqb negb app
                            load_QWORD sub_180221640 HIDWORD_assign]
                in (f s) in
      rewrite (run_unfold f n s); change (f s) with s'
  end.

Ltac branch3 :=
  match goal with
  | H : ?c = _ |- context [if ?c then _ else _] => rewrite H
  end.

Ltac run3 := repeat (go3; try (branch3; cbv iota)); cbn [run].

(** One pass of the flattened body is one pass of the loop. *)
Lemma one_pass (x5 x10 x7 x8 x9 : Z) (m : world) (tr : list event)
  (rv : option Z) :
  let s := mkState L97 (mkLocals x5 x10 x7 x8 x9) m tr rv in
  let after :=
    mkLocals x5 (sint32 (x10 + 1)) x7 (HIDWORD_assign x8 3) x10 in
  ((sint32 (x10 + 1) =? x5) = true ->
   run (step a2 a5) 6 s =
     mkState L119 after
       (fst (passes 1 a5 x10 x7 x8 m tr))
       (snd (passes 1 a5 x10 x7 x8 m tr)) rv) /\
  ((sint32 (x10 + 1) =? x5) = false ->
   run (step a2 a5) 7 s =
     mkState L97
       (mkLocals x5 (sint32 (x10 + 1)) (HIDWORD_assign x7 2)
          (HIDWORD_assign x8 3) x10)
       (fst (passes 1 a5 x10 x7 x8 m tr))
       (snd (passes 1 a5 x10 x7 x8 m tr)) rv).
Proof.
cbv zeta. split; intros Hc; run3; cbn [passes fst snd];
  rewrite <- app_assoc; reflexivity.
Qed.

Lemma passes_S (n : nat) (k v7 v8 : Z) (w : world) (tr : list event) :
  passes (S n) a5 k v7 v8 w tr =
  passes n a5 (sint32 (k + 1)) (HIDWORD_assign v7 2) (HIDWORD_assign v8 3)
    (fst (passes 1 a5 k v7 v8 w tr)) (snd (passes 1 a5 k v7 v8 w tr)).
Proof. reflexivity. Qed.

(** The flattened loop, entered with [v10 = k] and [n + 1] passes to go,
    does what [n + 1] passes of the loop do. *)
Lemma loop_is_passes (n : nat) :
  forall (k x7 x8 x9 : Z) (m : world) (tr : list event) (rv : option Z),
  0 <= k -> k + Z.of_nat n + 1 = a2 -> a2 < 2 ^ 32 ->
  let s := mkState L97 (mkLocals (sint32 a2) (sint32 k) x7 x8 x9) m tr rv in
  pc (run (step a2 a5) (7 * n + 6) s) = L119 /\
  retval (run (step a2 a5) (7 * n + 6) s) = rv /\
  (mem (run (step a2 a5) (7 * n + 6) s),
   trace (run (step a2 a5) (7 * n + 6) s)) =
    passes (S n) a5 (sint32 k) x7 x8 m tr.
Proof.
induction n as [|n IH]; intros k x7 x8 x9 m tr rv Hk Ha Hlt; cbv zeta.
- assert (Hc : (sint32 (sint32 k + 1) =? sint32 a2) = true).
  { rewrite sint32_add_l. apply Z.eqb_eq. f_equal. lia. }
  change (7 * 0 + 6)%nat with 6%nat.
  rewrite (proj1 (one_pass (sint32 a2) (sint32 k) x7 x8 x9 m tr rv) Hc).
  cbn [pc retval mem trace]. split; [reflexivity | split; reflexivity].
- assert (Hc : (sint32 (sint32 k + 1) =? sint32 a2) = false).
  { rewrite sint32_add_l. apply Z.eqb_neq. rewrite sint32_eq_iff.
    rewrite !uint32_small by lia. lia. }
  replace (7 * S n + 6)%nat with (7 + (7 * n + 6))%nat by lia.
  rewrite run_add, (passes_S (S n) (sint32 k) x7 x8 m tr).
  rewrite (proj2 (one_pass (sint32 a2) (sint32 k) x7 x8 x9 m tr rv) Hc).
  rewrite sint32_add_l.
  apply (IH (k + 1)); lia.
Qed.

End CountedLoop.

Section CountedLoopProperties.
Import UnwrapLoops3.
Context {world : Type} {E : Externals world}.

Lemma sixth_args_app (tr1 tr2 : list event) :
  sixth_args (tr1 ++ tr2) = sixth_args tr1 ++ sixth_args tr2.
Proof. unfold sixth_args. apply flat_map_app. Qed.

Lemma flat_map_seq_shift (f : nat -> list Z) (n : nat) :
  flat_map f (seq 1 n) = flat_map (fun j => f (S j)) (seq 0 n).
Proof.
rewrite <- seq_shift.
generalize (seq 0 n) as l.
induction l as [|j l IH]; cbn; [reflexivity | now rewrite IH].
Qed.

Lemma passes_sixth_args (a5 : Z) (n : nat) :
  forall (k x7 x8 : Z) (w : world) (tr : list event),
  sixth_args (snd (passes n a5 k (HIDWORD_assign x7 2) x8 w tr)) =
    sixth_args tr ++ sixth_args_of_passes n x7 x8.
Proof.
unfold sixth_args_of_passes.
induction n as [|n IH]; intros k x7 x8 w tr.
- cbn. now rewrite app_nil_r.
- cbn [passes]. cbv zeta. rewrite IH, sixth_args_app, <- app_assoc.
  f_equal.
  change (seq 0 (S n)) with (0%nat :: seq 1 n).
  cbn [flat_map]. rewrite flat_map_seq_shift.
  f_equal.
  apply flat_map_ext. intros j.
  rewrite !Nat.iter_succ_r. reflexivity.
Qed.

(** X10: [unwrap_loops_3] is the counted loop [passes]: once it has
    returned, the world and the calls are those of [a2] passes starting at
    index 0, and the value is 4.  What [v5], [v10] and [v9] held on entry
    has no influence on the world, the calls or the value.  What [v7] and
    [v8] held on entry is used in one way only, as the old value that
    [HIDWORD(v7) = 2] and [HIDWORD(v8) = 3] update: the sixth arguments of
    the two calls of pass [j] (from 0) are the entry contents of [v7] and
    of [v8] after [j + 1] such updates.  What an update leaves of the old
    value is up to the macro [HIDWORD], which comes from a header. *)
Theorem unwrap_loops_3_is_passes
  (junk : locals) (w : world) (n0x5C a2 n0x53 n9 a5 : Z) (fuel : nat) :
  0 <= a2 < 2 ^ 32 -> (7 * Z.to_nat a2 + 4 <= fuel)%nat ->
  let s := unwrap_loops_3 fuel junk w n0x5C a2 n0x53 n9 a5 in
  (mem s, trace s) =
    passes (Z.to_nat a2) a5 0 (HIDWORD_assign (v7 junk) 2) (v8 junk) w [] /\
  retval s = Some 4 /\
  sixth_args (trace s) =
    sixth_args_of_passes (Z.to_nat a2) (v7 junk) (v8 junk) /\
  (forall junk' : locals,
     v7 junk' = v7 junk -> v8 junk' = v8 junk ->
     let s' := unwrap_loops_3 fuel junk' w n0x5C a2 n0x53 n9 a5 in
     mem s' = mem s /\ trace s' = trace s /\ retval s' = retval s).
Proof.
intros Ha Hfuel.
assert (Hmain : forall junk0 : locals,
  (mem (unwrap_loops_3 fuel junk0 w n0x5C a2 n0x53 n9 a5),
   trace (unwrap_loops_3 fuel junk0 w n0x5C a2 n0x53 n9 a5)) =
    passes (Z.to_nat a2) a5 0 (HIDWORD_assign (v7 junk0) 2) (v8 junk0) w [] /\
  retval (unwrap_loops_3 fuel junk0 w n0x5C a2 n0x53 n9 a5) = Some 4).
{ intros junk0. unfold unwrap_loops_3.
  rewrite (proj1 (unwrap_loops_3_settled junk0 w a2 a5 fuel Ha Hfuel)).
  split; [| exact (proj2 (unwrap_loops_3_returns junk0 w a2 a5 Ha))].
  destruct (Z.eq_dec a2 0) as [H0 | H0].
  - replace (7 * Z.to_nat a2 + 4)%nat with (3 + 1)%nat
      by (subst a2; reflexivity).
    rewrite run_add, (unwrap_loops_3_skip a2 a5 junk0 w H0).
    subst a2. reflexivity.
  - destruct (Z.to_nat a2) as [|n] eqn:Hn; [lia |].
    replace (7 * S n + 4)%nat with (4 + ((7 * n + 6) + 1))%nat by lia.
    assert (H4 : run (step a2 a5) 4 (entry junk0 w) =
                 mkState L97
                   (mkLocals (sint32 a2) (sint32 0)
                      (HIDWORD_assign (v7 junk0) 2) (v8 junk0) (v9 junk0))
                   w [] None).
    { assert (Hc : negb (a2 =? 0) = true)
        by (apply negb_true_iff, Z.eqb_neq; exact H0).
      unfold entry.
      repeat (rewrite run_unfold; unfold step at 1; cbn [pc vars v5 v10 v7 v8 v9
                goto set_v5 set_v10 set_v7 mem trace retval];
              try rewrite Hc).
      reflexivity. }
    rewrite (run_add _ 4), (run_add _ (7 * n + 6) 1), H4.
    destruct (loop_is_passes a2 a5 n 0 (HIDWORD_assign (v7 junk0) 2) (v8 junk0)
                (v9 junk0) w [] None ltac:(lia) ltac:(lia) ltac:(lia))
      as (Hpc & _ & Hmt).
    change (sint32 0) with 0 in Hmt.
    rewrite <- Hmt.
    remember (run (step a2 a5) (7 * n + 6) _) as s119 eqn:Hs.
    destruct s119 as [p v m tr rv]. cbn [pc mem trace] in *. subst p.
    reflexivity. }
intros s. subst s.
destruct (Hmain junk) as [Hmt Hrv].
split; [exact Hmt | split; [exact Hrv | split]].
- apply (f_equal snd) in Hmt. cbn [snd] in Hmt.
  rewrite Hmt, passes_sixth_args. reflexivity.
- intros junk' H7 H8 s'. subst s'.
  destruct (Hmain junk') as [Hmt' Hrv'].
  rewrite H7, H8, <- Hmt in Hmt'.
  injection Hmt' as Hm Ht.
  rewrite Hm, Ht, Hrv, Hrv'. auto.
Qed.

End CountedLoopProperties.

Section LargeCounts.
Import UnwrapLoops3.
Context {world : Type} {E : Externals world}.

Lemma sint32_high (z : Z) : 2 ^ 31 <= z < 2 ^ 32 -> sint32 z = z - 2 ^ 32.
Proof.
intros H. unfold sint32.
replace (z + 2 ^ 31) with (z - 2 ^ 31 + 1 * 2 ^ 32) by lia.
rewrite Z_mod_plus_full, Z.mod_small; lia.
Qed.

Lemma sint64_small (z : Z) : - 2 ^ 63 <= z < 2 ^ 63 -> sint64 z = z.
Proof. intros H. unfold sint64. rewrite Z.mod_small; lia. Qed.

(** X11: the loop makes exactly [a2] passes for every non-zero 32-bit
    [a2], also above [2^31 - 1]: the function returns, after [2 * a2]
    calls, and pass number [j] (from 0) runs with index [j] while
    [j < 2^31] and with the wrapped, negative index [j - 2^32] from pass
    [2^31] on. *)
Theorem loop_index_wraps
  (junk : locals) (w : world) (n0x5C a2 n0x53 n9 a5 : Z) :
  0 < a2 < 2 ^ 32 ->
  exists fuel,
    let s := unwrap_loops_3 fuel junk w n0x5C a2 n0x53 n9 a5 in
    let ex := exec (step a2 a5) fuel (entry junk w) in
    halted s = true /\
    Z.of_nat (length (trace s)) = 2 * a2 /\
    Z.of_nat (length (index_at L98 ex)) = a2 /\
    forall j : nat,
      Z.of_nat j < a2 ->
      (Z.of_nat j < 2 ^ 31 ->
       nth_error (index_at L98 ex) j = Some (Z.of_nat j)) /\
      (2 ^ 31 <= Z.of_nat j ->
       nth_error (index_at L98 ex) j = Some (Z.of_nat j - 2 ^ 32)).
Proof.
intros Ha. exists (7 * Z.to_nat a2 + 4)%nat. cbv zeta.
destruct (unwrap_loops_3_loop a2 a5 junk w Ha)
  as ((vs & m' & evs & HN & Hlen & _) & _ & I98 & _).
unfold unwrap_loops_3. rewrite HN, I98. cbn [halted pc halted_at trace].
split; [reflexivity | split; [lia | split]].
- rewrite length_map, length_seq. lia.
- intros j Hj.
  assert (Hnth : nth_error
                   (map (fun j => sint32 (Z.of_nat j)) (seq 0 (Z.to_nat a2))) j
                 = Some (sint32 (Z.of_nat j))).
  { rewrite nth_error_map, nth_error_seq.
    destruct (Nat.ltb_spec j (Z.to_nat a2)); [reflexivity | lia]. }
  rewrite Hnth. split; intros Hr.
  + now rewrite sint32_small by lia.
  + now rewrite sint32_high by lia.
Qed.

(** X12: the records the calls read from are 64 bytes apart, starting at
    [a5]: for an index below [2^25] the address used is
    [a5 + 64 * v10 + off]; from index [2^25] to [2^26 - 1] the 32-bit
    offset [v10 << 6] has wrapped and the address is [2^32] lower. *)
Theorem element_address (a5 off : Z) (s : state (world := world)) :
  0 <= off < 2 ^ 31 -> - 2 ^ 62 <= a5 < 2 ^ 62 ->
  (0 <= v10 (vars s) < 2 ^ 25 ->
   element a5 s off = a5 + 64 * v10 (vars s) + off) /\
  (2 ^ 25 <= v10 (vars s) < 2 ^ 26 ->
   element a5 s off = a5 + 64 * v10 (vars s) - 2 ^ 32 + off).
Proof.
intros Hoff Ha. unfold element. rewrite Z.shiftl_mul_pow2 by lia.
change (2 ^ 6) with 64.
split; intros Hk.
- rewrite (sint32_small (v10 (vars s) * 64)) by lia.
  rewrite (sint64_small (a5 + v10 (vars s) * 64)) by lia.
  rewrite sint64_small by lia. lia.
- rewrite (sint32_high (v10 (vars s) * 64)) by lia.
  rewrite (sint64_small (a5 + (v10 (vars s) * 64 - 2 ^ 32))) by lia.
  rewrite sint64_small by lia. lia.
Qed.

End LargeCounts.


(** Two passes over the records at [0x1000] and [0x1040], in the world
    where [HIDWORD(x) = c] stores [c] in [x]: every first call of a pass
    gets 2 and every second call 3, not the 7 the locals held on entry. *)
Lemma unwrap_loops_3_is_passes_witness :
  0 <= 2 < 2 ^ 32 /\ (7 * Z.to_nat 2 + 4 <= 18)%nat /\
  (UnwrapLoops3.mem
     (UnwrapLoops3.unwrap_loops_3 (E := assigning_externals) 18 ul3_junk
        (mkMachine [(0x1028, 5); (0x1050, 6)] []) 0x5C 2 0x53 9 0x1000),
   UnwrapLoops3.trace
     (UnwrapLoops3.unwrap_loops_3 (E := assigning_externals) 18 ul3_junk
        (mkMachine [(0x1028, 5); (0x1050, 6)] []) 0x5C 2 0x53 9 0x1000)) =
    (mkMachine [(0x1028, 5); (0x1050, 6)] [],
     [Call_sub_180221640 5 0xA 0x5E 0 0x45 2;
      Call_sub_180221640 0 0x62 0x2A 0 0x19 3;
      Call_sub_180221640 0 0xA 0x5E 0 0x45 2;
      Call_sub_180221640 6 0x62 0x2A 0 0x19 3]) /\
  UnwrapLoops3.retval
    (UnwrapLoops3.unwrap_loops_3 (E := assigning_externals) 18 ul3_junk
       (mkMachine [(0x1028, 5); (0x1050, 6)] []) 0x5C 2 0x53 9 0x1000) =
  Some 4 /\
  sixth_args
    (UnwrapLoops3.trace
       (UnwrapLoops3.unwrap_loops_3 (E := assigning_externals) 18 ul3_junk
          (mkMachine [(0x1028, 5); (0x1050, 6)] []) 0x5C 2 0x53 9 0x1000)) =
  [2; 3; 2; 3].
Proof.
split; [lia | split; [vm_compute; lia |]].
destruct (unwrap_loops_3_is_passes (E := assigning_externals) ul3_junk
            (mkMachine [(0x1028, 5); (0x1050, 6)] []) 0x5C 2 0x53 9 0x1000 18)
  as (Hmt & Hrv & H6 & _); [lia | vm_compute; lia |].
split; [| split].
- rewrite Hmt. vm_compute. reflexivity.
- exact Hrv.
- rewrite H6. vm_compute. reflexivity.
Defined.

(** One pass more than an [int] can count. *)
Lemma loop_index_wraps_witness :
  0 < 2 ^ 31 + 1 < 2 ^ 32 /\
  exists fuel,
    UnwrapLoops3.halted
      (UnwrapLoops3.unwrap_loops_3 fuel ul3_junk (mkMachine [] [])
         0x5C (2 ^ 31 + 1) 0x53 9 0x1000) = true.
Proof.
split; [lia |].
destruct (loop_index_wraps ul3_junk (mkMachine [] [])
            0x5C (2 ^ 31 + 1) 0x53 9 0x1000) as (fuel & H & _); [lia |].
exists fuel. exact H.
Defined.

(** The record with index 2 of an array at [0x1000]. *)
Lemma element_address_witness :
  0 <= 0x28 < 2 ^ 31 /\ - 2 ^ 62 <= 0x1000 < 2 ^ 62 /\
  UnwrapLoops3.element 0x1000
    (UnwrapLoops3.mkState UnwrapLoops3.L98 (UnwrapLoops3.mkLocals 3 2 7 7 2)
       (mkMachine [] []) [] None) 0x28 = 0x10A8.
Proof.
split; [lia | split; [lia |]].
apply (element_address 0x1000 0x28
         (UnwrapLoops3.mkState UnwrapLoops3.L98
            (UnwrapLoops3.mkLocals 3 2 7 7 2) (mkMachine [] []) [] None));
  cbn; lia.
Defined.
